(** * Semantic validation pipeline of the compliance service

    A shallow embedding of [src/common/services/shacl.service.ts] and
    [src/common/services/registry.service.ts].

    - JavaScript strings are [string]; arrays are [list]; the string and
      array primitives the services call ([indexOf], [split], [replace]
      with the pattern [/<*>*/g], [reduce] without an initial value,
      [||], template literals) are written out in [Module Js].
    - A rejected promise / thrown exception is [Throw e]; an [async]
      method is a computation in the state-and-exception monad [M].
    - The module-level [cache] object is the [cache] field of [State];
      the HTTP requests issued so far are recorded next to it, so that
      statements about "no second fetch" can be made.
    - The collaborators outside the repository (jsonld canonicalisation,
      the N3 parser, the SHACL engine, the HTTP client, [JSON.parse]) are
      the fields of a [World].
    - Calls run one after the other; the interleaving of concurrent
      requests and the writes of the logger are not modelled. *)

From Stdlib Require Import ZArith Lia Ascii.
From stdpp Require Import gmap strings list.

Local Open Scope Z_scope.

(** ** JavaScript primitives used by the services *)

Module Js.

(** Thrown values.  [ConflictException s] is [new ConflictException('s')],
    [ConflictExceptionFrom e] is [new ConflictException(e)] for a caught
    error [e]; [TypeError] is raised by the language itself; [ExternalError]
    is whatever a collaborator outside the repository throws. *)
Inductive exn : Type :=
| ConflictException (response : string)
| ConflictExceptionFrom (cause : exn)
| TypeError (msg : string)
| ExternalError (msg : string).

(** [e.message].  An HttpException built from an error object takes the
    message of that object. *)
Fixpoint message (e : exn) : string :=
  match e with
  | ConflictException s => s
  | ConflictExceptionFrom c => message c
  | TypeError m => m
  | ExternalError m => m
  end.

Inductive Result (A : Type) : Type :=
| Ok (a : A)
| Throw (e : exn).
Arguments Ok {A} a.
Arguments Throw {A} e.

(** [s.indexOf(pat)]: position of the first occurrence, [-1] if none. *)
Definition indexOf (s pat : string) : Z :=
  match String.index 0 pat s with
  | Some n => Z.of_nat n
  | None => -1
  end.

(** [arr.indexOf(x)] on an array of strings (strict equality). *)
Fixpoint array_indexOf_from (i : Z) (arr : list string) (x : string) : Z :=
  match arr with
  | [] => -1
  | y :: ys => if String.eqb y x then i else array_indexOf_from (i + 1) ys x
  end.

Definition array_indexOf (arr : list string) (x : string) : Z :=
  array_indexOf_from 0 arr x.

(** [s.split(sep)] for a one-character separator; ["".split(sep)] is
    [[""]]. *)
Fixpoint split (sep : ascii) (s : string) : list string :=
  match s with
  | EmptyString => [EmptyString]
  | String c s' =>
      if Ascii.eqb c sep then EmptyString :: split sep s'
      else match split sep s' with
           | h :: t => String c h :: t
           | [] => [String c EmptyString]
           end
  end.

(** [arr[i]]: [None] is [undefined]. *)
Definition at_index {A} (arr : list A) (i : nat) : option A := arr !! i.

(** Longest prefix made of the character [c], dropped. *)
Fixpoint skip (c : ascii) (s : string) : string :=
  match s with
  | String a s' => if Ascii.eqb a c then skip c s' else s
  | EmptyString => EmptyString
  end.

(** [s.replace(/<*>*/g, '')].  At each position the pattern matches the
    longest run of ['<'] followed by the longest run of ['>'].  A non-empty
    match is deleted and the scan resumes after it; an empty match leaves
    the character at that position in place and the scan moves one
    character on.  [fuel] bounds the number of match attempts. *)
Fixpoint replace_brackets_from (fuel : nat) (s : string) : string :=
  match fuel with
  | O => s
  | S fuel' =>
      match s with
      | EmptyString => EmptyString
      | String c s' =>
          let rest := skip ">" (skip "<" s) in
          if (String.length rest =? String.length s)%nat
          then String c (replace_brackets_from fuel' s')
          else replace_brackets_from fuel' rest
      end
  end.

Definition replace_brackets (s : string) : string :=
  replace_brackets_from (String.length s) s.

(** [arr.reduce(f)] without an initial value. *)
Definition reduce {A} (f : A -> A -> A) (arr : list A) : Result A :=
  match arr with
  | [] => Throw (TypeError "Reduce of empty array with no initial value")
  | x :: xs => Ok (fold_left f xs x)
  end.

(** Truthiness of a string: only the empty string is falsy. *)
Definition truthy (s : string) : bool :=
  negb (String.eqb s "").

End Js.
Import Js.

(** ** Data model *)

(** A JavaScript value typed [any] or [object] in the services: a string
    or an object (a JSON-LD document). *)
Inductive JsAny (Obj : Type) : Type :=
| JsString (s : string)
| JsObject (o : Obj).
Arguments JsString {Obj} s.
Arguments JsObject {Obj} o.

(** One entry of the engine's validation report, with the fields
    [validate] reads: [focusNode?.value] ([None] when the focus node is
    absent), the text of [path], [message] and the nested [detail]
    entries, of which [validate] reads [path] and [message].  The engine
    hands [message] over as an array, one element per message of the
    result and empty when there is none; it is given here by the texts of
    its elements. *)
Record ReportDetail : Type := mkDetail {
  d_path : string;
  d_message : list string
}.

Record ReportResult : Type := mkReportResult {
  r_focusNode : option string;
  r_path : string;
  r_message : list string;
  r_detail : list ReportDetail
}.

Record ValidationReport : Type := mkReport {
  report_conforms : bool;
  report_results : list ReportResult
}.

(** The DTO [ValidationResult]. *)
Record ValidationResult : Type := mkValidationResult {
  conforms : bool;
  results : list string
}.

(** An HTTP GET issued through the registry service, tagged with the
    method that issued it. *)
Inductive Request : Type :=
| GetImplemented (url : string)
| GetShape (url : string).

Definition is_shape_fetch (r : Request) : bool :=
  match r with GetShape _ => true | GetImplemented _ => false end.

(** Number of shape fetches in a request log. *)
Definition shape_fetches (log : list Request) : nat :=
  length (filter (fun r => is_shape_fetch r = true) log).

Section Pipeline.

Variables (Obj DatasetExt : Type).

(** A value of the cache object: [{}] is [{| shape := None |}]. *)
Record CacheEntry : Type := mkEntry { shape : option DatasetExt }.

(** The collaborators.  The HTTP client may answer differently over time:
    its answer depends on the requests issued before. *)
Record World : Type := mkWorld {
  REGISTRY_URL : option string;
  jsonld_canonize : JsAny Obj -> Result string;
  n3_import : JsAny Obj -> Result DatasetExt;
  JSON_parse_ok : JsAny Obj -> bool;
  shacl_validate : DatasetExt -> DatasetExt -> Result ValidationReport;
  http_get_implemented : list Request -> string -> Result (list string);
  http_get_shape : list Request -> string -> Result (JsAny Obj)
}.

(** The process state: the module-level [cache] and the log of requests. *)
Record State : Type := mkState {
  cache : gmap string CacheEntry;
  requests : list Request
}.

(** The names every object inherits from [Object.prototype]: eleven
    functions and the accessor [__proto__], whose value is
    [Object.prototype] itself. *)
Definition object_prototype_names : list string :=
  ["constructor"; "__defineGetter__"; "__defineSetter__"; "hasOwnProperty";
   "__lookupGetter__"; "__lookupSetter__"; "isPrototypeOf";
   "propertyIsEnumerable"; "toString"; "valueOf"; "__proto__";
   "toLocaleString"].

(** [const cache = { trustframework: {} }], as [cache[name]] reads it:
    [cache st !! name] is the object [cache[name]] evaluates to, given by
    what reading its [shape] yields, and [None] when [cache[name]] is
    [undefined].  Besides its own property 'trustframework' the object
    resolves the names of [Object.prototype], to objects that have no
    [shape] at the start. *)
Definition initial_cache : gmap string CacheEntry :=
  <["trustframework" := mkEntry None]>
    (list_to_map (map (fun name => (name, mkEntry None)) object_prototype_names)).

Definition initial_state : State := mkState initial_cache [].

(** ** The monad of [async] methods *)

Definition M (A : Type) : Type := State -> Result A * State.

Definition ret {A} (a : A) : M A := fun st => (Ok a, st).

Definition throw {A} (e : exn) : M A := fun st => (Throw e, st).

Definition bind {A B} (m : M A) (k : A -> M B) : M B :=
  fun st =>
    match m st with
    | (Ok a, st') => k a st'
    | (Throw e, st') => (Throw e, st')
    end.

(** [try { body } catch (e) { handler e }] *)
Definition try_catch {A} (body : M A) (handler : exn -> M A) : M A :=
  fun st =>
    match body st with
    | (Ok a, st') => (Ok a, st')
    | (Throw e, st') => handler e st'
    end.

(** A collaborator's answer, awaited. *)
Definition lift {A} (r : Result A) : M A := fun st => (r, st).

Notation "'do' x <- m ; k" := (bind m (fun x => k))
  (at level 10, x name, m at level 100, k at level 200, only parsing).

Variable w : World.

(** ** registry.service.ts *)

(** [process.env.REGISTRY_URL || 'https://registry.gaia-x.eu/development'] *)
Definition registryUrl : string :=
  match REGISTRY_URL w with
  | Some url => if truthy url then url else "https://registry.gaia-x.eu/development"
  | None => "https://registry.gaia-x.eu/development"
  end.

Definition getImplementedTrustFrameworkShapes : M (list string) :=
  fun st =>
    let url := registryUrl +:+ "/shapes/implemented" in
    (http_get_implemented w (requests st) url,
     mkState (cache st) (requests st ++ [GetImplemented url])).

Definition getShape (shape_name : string) : M (JsAny Obj) :=
  fun st =>
    let url := registryUrl +:+ "/shapes/" +:+ shape_name in
    (http_get_shape w (requests st) url,
     mkState (cache st) (requests st ++ [GetShape url])).

(** ** shacl.service.ts *)

Definition default_text : string := "does not conform with the given shape".

(** Truthiness of an array: an array is an object, and every object is
    truthy, the empty array included. *)
Definition array_truthy {A} (arr : list A) : bool := true.

(** An array in a template literal: its elements joined with commas. *)
Definition array_toString (arr : list string) : string :=
  String.concat "," arr.

(** [`${x || 'does not conform with the given shape'}`] for a message. *)
Definition message_or_default (m : list string) : string :=
  if array_truthy m then array_toString m else default_text.

(** [`${result?.focusNode?.value}`] *)
Definition focus_text (f : option string) : string :=
  match f with
  | Some v => v
  | None => "undefined"
  end.

(** The body of the loop over [reportResults] (lines 28-35). *)
Definition errorMessage_of (result : ReportResult) : string :=
  let errorMessage :=
    "ERROR: " +:+ focus_text (r_focusNode result) +:+ " " +:+ r_path result
      +:+ ": " +:+ message_or_default (r_message result) in
  if (0 <? Z.of_nat (length (r_detail result)))%Z
  then
    fold_left
      (fun errorMessage detail =>
         errorMessage +:+ " " +:+ d_path detail +:+ ": "
           +:+ message_or_default (d_message detail) +:+ ";")
      (r_detail result)
      (errorMessage +:+ "; DETAILS:")
  else errorMessage.

Definition validate (shapes data : DatasetExt) : M ValidationResult :=
  do report <- lift (shacl_validate w shapes data);
  let results :=
    fold_left (fun results result => results ++ [errorMessage_of result])
      (report_results report) [] in
  ret (mkValidationResult (report_conforms report) results).

(** [jsonld.canonize(objectToCanonize, { format: 'application/n-quads' })] *)
Definition normalize (objectToCanonize : JsAny Obj) : M string :=
  lift (jsonld_canonize w objectToCanonize).

(** [rdf.dataset().import(parser.import(stream))] over a stream holding
    [raw]. *)
Definition transformToStream (raw : JsAny Obj) : M DatasetExt :=
  lift (n3_import w raw).

(** The promise of [transformToStream] is returned without [await]: its
    rejection is not seen by the [catch] of [loadFromTurtle]. *)
Definition loadFromTurtle (raw : JsAny Obj) : M DatasetExt :=
  transformToStream raw.

Definition isJsonString (str : JsAny Obj) : bool := JSON_parse_ok w str.

Definition loadFromJSONLDWithQuads (data : JsAny Obj) : M DatasetExt :=
  do quads <- normalize data;
  if negb (truthy quads) || (Z.of_nat (String.length quads) =? 0)%Z
  then throw (ConflictException "Unable to canonize your VerifiablePresentation")
  else lift (n3_import w (JsString quads)).

(** Only the awaited registry call is inside the [try]; the loading
    promise is returned without [await]. *)
Definition loadShaclFromUrl (type : string) : M DatasetExt :=
  do response <- try_catch (getShape type)
                   (fun error => throw (ConflictExceptionFrom error));
  if isJsonString response then loadFromJSONLDWithQuads response
  else loadFromTurtle response.

Definition getShaclShape (shapeName : string) : M DatasetExt :=
  loadShaclFromUrl shapeName.

(** [arr.map(f)] for a callback that may throw: the first throw aborts. *)
Fixpoint array_map {A B} (f : A -> Result B) (arr : list A) : Result (list B) :=
  match arr with
  | [] => Ok []
  | x :: xs =>
      match f x with
      | Throw e => Throw e
      | Ok y =>
          match array_map f xs with
          | Throw e => Throw e
          | Ok ys => Ok (y :: ys)
          end
      end
  end.

Definition newline : ascii := "010"%char.

Definition rdf_type : string :=
  "http://www.w3.org/1999/02/22-rdf-syntax-ns#type".
Definition proof_marker : string :=
  "<https://w3id.org/security#JsonWebSignature2020>".
Definition vp_marker : string :=
  "<https://www.w3.org/2018/credentials#VerifiablePresentation>".
Definition vc_marker : string :=
  "<https://www.w3.org/2018/credentials#VerifiableCredential>".

(** [typeQuad.split(' ')[2].replace(/<*>*/g, '')]: reading [replace] off
    [undefined] is a TypeError. *)
Definition object_term (typeQuad : string) : Result string :=
  match at_index (split " " typeQuad) 2 with
  | Some term => Ok (replace_brackets term)
  | None => Throw (TypeError "Cannot read properties of undefined (reading 'replace')")
  end.

Definition getVPTypes (canonizedVP : string) : Result (list string) :=
  array_map object_term
    (List.filter (fun typeQuad => indexOf typeQuad vc_marker =? -1)
      (List.filter (fun typeQuad => indexOf typeQuad vp_marker =? -1)
        (List.filter (fun typeQuad => indexOf typeQuad proof_marker =? -1)
          (List.filter (fun quad => indexOf quad rdf_type >? -1)
            (split newline canonizedVP))))).

Definition trustframework_namespace : string :=
  "https://registry.lab.gaia-x.eu/development/api/trusted-shape-registry/v1/shapes/jsonld/trustframework#".

(** The returned expression of [shouldCredentialBeValidated] (lines
    135-142); [&&] does not evaluate its right operand when the left one
    is [false]. *)
Definition credentialTypes_valid (validTypes credentialTypes : list string)
  : Result bool :=
  if (Z.of_nat (length credentialTypes) >? 0)
  then reduce (fun previousValue currentValue => previousValue && currentValue)
         (map (fun type => array_indexOf validTypes type >? -1) credentialTypes)
  else Ok false.

Definition shouldCredentialBeValidated (quads : string) : M bool :=
  do validTypes <- getImplementedTrustFrameworkShapes;
  let validTypes :=
    map (fun validType => trustframework_namespace +:+ validType) validTypes in
  do credentialTypes <- lift (getVPTypes quads);
  lift (credentialTypes_valid validTypes credentialTypes).

Definition isCached (type : string) : M bool :=
  fun st =>
    match cache st !! type with
    | Some entry =>
        match shape entry with
        | Some _ => (Ok true, st)
        | None => (Ok false, st)
        end
    | None => (Ok false, st)
    end.

(** Reading [cache[type].shape] as the first argument of [validate];
    the two failing cases are excluded when [isCached] holds. *)
Definition read_cached_shape (type : string) : M DatasetExt :=
  fun st =>
    match cache st !! type with
    | Some entry =>
        match shape entry with
        | Some schema => (Ok schema, st)
        | None => (Throw (TypeError "shapes is undefined"), st)
        end
    | None =>
        (Throw (TypeError "Cannot read properties of undefined (reading 'shape')"), st)
    end.

(** An object that has no [shape] of its own reads the one of
    [Object.prototype]. *)
Definition inherit_shape (schema : DatasetExt) (entry : CacheEntry) : CacheEntry :=
  match shape entry with
  | Some _ => entry
  | None => mkEntry (Some schema)
  end.

(** The effect of [cache[type].shape = schema] on what [cache[name]]
    reads.  On the entry of 'trustframework' or on an inherited function
    the shape becomes a property of that object.  For '__proto__' the
    object is [Object.prototype]: every object without a [shape] of its own
    now reads [schema], and [cache['shape']] is now [schema], a dataset,
    which reads its [shape] from [Object.prototype] like the others. *)
Definition store_shape (type : string) (schema : DatasetExt)
    (objects : gmap string CacheEntry) : gmap string CacheEntry :=
  if String.eqb type "__proto__"
  then
    let objects' := inherit_shape schema <$> objects in
    match objects' !! "shape" with
    | Some _ => objects'
    | None => <["shape" := mkEntry (Some schema)]> objects'
    end
  else <[type := mkEntry (Some schema)]> objects.

(** [cache[type].shape = schema] (line 97, reached only when [isCached]
    answered [false]): a TypeError when [cache[type]] is [undefined]. *)
Definition write_cached_shape (type : string) (schema : DatasetExt) : M unit :=
  fun st =>
    match cache st !! type with
    | Some _ =>
        (Ok tt, mkState (store_shape type schema (cache st)) (requests st))
    | None =>
        (Throw (TypeError "Cannot set properties of undefined (setting 'shape')"), st)
    end.

(** The [try] block of [verifyShape] (lines 92-99). *)
Definition verifyShape_try (verifiablePresentation : JsAny Obj) (type : string)
  : M ValidationResult :=
  do selfDescriptionDataset <- loadFromJSONLDWithQuads verifiablePresentation;
  do cached <- isCached type;
  if cached
  then
    do schema <- read_cached_shape type;
    validate schema selfDescriptionDataset
  else
    do schema <- getShaclShape type;
    do _u <- write_cached_shape type schema;
    validate schema selfDescriptionDataset.

Definition mismatch_text : string :=
  "VerifiableCrdential contains a shape that is not defined in registry shapes".

Definition verifyShape (verifiablePresentation : JsAny Obj) (type : string)
  : M ValidationResult :=
  do quads <- normalize verifiablePresentation;
  do should <- shouldCredentialBeValidated quads;
  if negb should
  then throw (ConflictException mismatch_text)
  else
    try_catch (verifyShape_try verifiablePresentation type)
      (fun e => ret (mkValidationResult false [message e])).

End Pipeline.

Arguments REGISTRY_URL {Obj DatasetExt} w.
Arguments jsonld_canonize {Obj DatasetExt} w _.
Arguments n3_import {Obj DatasetExt} w _.
Arguments JSON_parse_ok {Obj DatasetExt} w _.
Arguments shacl_validate {Obj DatasetExt} w _ _.
Arguments http_get_implemented {Obj DatasetExt} w _ _.
Arguments http_get_shape {Obj DatasetExt} w _ _.
Arguments mkEntry {DatasetExt} shape.
Arguments shape {DatasetExt} c.
Arguments mkState {DatasetExt} cache requests.
Arguments cache {DatasetExt} s.
Arguments requests {DatasetExt} s.
Arguments initial_state {DatasetExt}.
Arguments initial_cache {DatasetExt}.
Arguments ret {DatasetExt A} a.
Arguments throw {DatasetExt A} e.
Arguments bind {DatasetExt A B} m k.
Arguments try_catch {DatasetExt A} body handler.
Arguments lift {DatasetExt A} r.
Arguments isCached {DatasetExt} type.
Arguments read_cached_shape {DatasetExt} type.
Arguments write_cached_shape {DatasetExt} type schema.
Arguments inherit_shape {DatasetExt} schema entry.
Arguments store_shape {DatasetExt} type schema objects.
Arguments registryUrl {Obj DatasetExt} w.
Arguments getImplementedTrustFrameworkShapes {Obj DatasetExt} w.
Arguments getShape {Obj DatasetExt} w shape_name.
Arguments validate {Obj DatasetExt} w shapes data.
Arguments normalize {Obj DatasetExt} w objectToCanonize.
Arguments transformToStream {Obj DatasetExt} w raw.
Arguments loadFromTurtle {Obj DatasetExt} w raw.
Arguments isJsonString {Obj DatasetExt} w str.
Arguments loadFromJSONLDWithQuads {Obj DatasetExt} w data.
Arguments loadShaclFromUrl {Obj DatasetExt} w type.
Arguments getShaclShape {Obj DatasetExt} w shapeName.
Arguments shouldCredentialBeValidated {Obj DatasetExt} w quads.
Arguments verifyShape_try {Obj DatasetExt} w verifiablePresentation type.
Arguments verifyShape {Obj DatasetExt} w verifiablePresentation type.

(** Sequential [verifyShape] calls for one type, one per document; the
    state after the last one. *)
Fixpoint verifyShape_sequence {Obj DatasetExt : Type} (w : World Obj DatasetExt)
    (calls : list (JsAny Obj)) (type : string) (st : State DatasetExt)
  : State DatasetExt :=
  match calls with
  | [] => st
  | vp :: rest => verifyShape_sequence w rest type (snd (verifyShape w vp type st))
  end.

(** ** A small concrete world

    Documents are given by their canonical N-Quads text, a dataset is the
    list of its non-empty lines, the registry implements [Member] and
    serves one Turtle shape; the engine reports one fixed violation when
    the shape graph holds the line [fail]. *)

Module Demo.

Definition nl : string := String newline EmptyString.

Definition type_line (subject type_iri : string) : string :=
  subject +:+ " <" +:+ rdf_type +:+ "> <" +:+ type_iri +:+ "> ." +:+ nl.

Definition member_doc : JsAny string :=
  JsObject (type_line "<did:ex:1>" (trustframework_namespace +:+ "Member")).

Definition unregistered_doc : JsAny string :=
  JsObject (type_line "<did:ex:2>" "Unregistered").

Definition empty_doc : JsAny string := JsObject "".

Definition canonize (v : JsAny string) : Result string :=
  match v with
  | JsObject quads => Ok quads
  | JsString s => Ok s
  end.

Definition parse (v : JsAny string) : Result (list string) :=
  match v with
  | JsString text =>
      Ok (List.filter (fun line => negb (String.eqb line "")) (split newline text))
  | JsObject _ => Throw (ExternalError "The chunk argument must be of type string")
  end.

Definition sample_violation : ReportResult :=
  mkReportResult (Some "ex:1") "ex:name" []
    [mkDetail "ex:age" ["must be integer"]].

Definition engine (shapes data : list string) : Result ValidationReport :=
  if existsb (String.eqb "fail") shapes
  then Ok (mkReport false [sample_violation])
  else Ok (mkReport true []).

Definition world (url : option string) (shape_reply : Result (JsAny string))
  : World string (list string) :=
  {| REGISTRY_URL := url;
     jsonld_canonize := canonize;
     n3_import := parse;
     JSON_parse_ok := fun _ => false;
     shacl_validate := engine;
     http_get_implemented := fun _ _ => Ok ["Member"];
     http_get_shape := fun _ _ => shape_reply |}.

Definition up : World string (list string) :=
  world None (Ok (JsString "ok")).

Definition failing_shapes : World string (list string) :=
  world None (Ok (JsString "fail")).

Definition down : World string (list string) :=
  world None (Throw (ExternalError "connect ECONNREFUSED")).

Definition elsewhere : World string (list string) :=
  world (Some "https://registry.example.org/v2") (Ok (JsString "ok")).

End Demo.

(** ** The type extractor as the specification words it

    Follows the specification's words (section 4.3), for comparison with
    [getVPTypes]: a line is kept when its predicate field is the RDF type
    predicate and its object field is none of the three markers; the object
    field is returned without its enclosing angle brackets. *)

Definition spec_strip_delimiters (term : string) : string :=
  match term with
  | String "<" rest =>
      match String.rev rest with
      | String ">" inner => String.rev inner
      | _ => term
      end
  | _ => term
  end.

Definition spec_is_marker (object : string) : bool :=
  String.eqb object proof_marker || String.eqb object vp_marker
  || String.eqb object vc_marker.

Definition spec_keeps (line : string) : bool :=
  match split " " line with
  | _ :: predicate :: object :: _ =>
      String.eqb predicate ("<" +:+ rdf_type +:+ ">") && negb (spec_is_marker object)
  | _ => false
  end.

Definition spec_object (line : string) : string :=
  match split " " line with
  | _ :: _ :: object :: _ => spec_strip_delimiters object
  | _ => ""
  end.

Definition spec_extractTypes (canonicalQuads : string) : list string :=
  map spec_object (List.filter spec_keeps (split newline canonicalQuads)).

(** ** Textual notions used in the statements *)

(** [pat] occurs in [s] as a contiguous piece of text. *)
Definition occurs_in (pat s : string) : Prop :=
  exists pre post, s = pre +:+ pat +:+ post.

(** [s] with every ['<'] and ['>'] removed. *)
Fixpoint without_brackets (s : string) : string :=
  match s with
  | EmptyString => EmptyString
  | String c s' =>
      if Ascii.eqb c "<" || Ascii.eqb c ">" then without_brackets s'
      else String c (without_brackets s')
  end.

(** The character [c] appears in [s]. *)
Fixpoint mentions (c : ascii) (s : string) : bool :=
  match s with
  | EmptyString => false
  | String a s' => Ascii.eqb a c || mentions c s'
  end.

(** A line is kept by the four textual filters of [getVPTypes]. *)
Definition kept_textually (line : string) : Prop :=
  occurs_in rdf_type line /\ ~ occurs_in proof_marker line
  /\ ~ occurs_in vp_marker line /\ ~ occurs_in vc_marker line.

(** The third space-separated field of a line, every angle bracket
    removed. *)
Definition third_field (line : string) : Result string :=
  match split " " line !! 2%nat with
  | Some term => Ok (without_brackets term)
  | None => Throw (TypeError "Cannot read properties of undefined (reading 'replace')")
  end.

(** A canonical quad whose object, not its predicate, is the RDF type
    IRI. *)
Definition object_is_rdf_type : string :=
  "<http://ex/s> <http://ex/p> <" +:+ rdf_type +:+ "> ." +:+ Demo.nl.

(** The text appended for one nested detail, and the message of one
    violation, written with the message where the format has it. *)
Definition detail_text (d : ReportDetail) : string :=
  " " +:+ d_path d +:+ ": " +:+ message_or_default (d_message d) +:+ ";".

Definition violation_text (r : ReportResult) : string :=
  "ERROR: " +:+ focus_text (r_focusNode r) +:+ " " +:+ r_path r +:+ ": "
    +:+ message_or_default (r_message r)
    +:+ match r_detail r with
        | [] => ""
        | details =>
            "; DETAILS:" +:+ fold_right (fun d rest => detail_text d +:+ rest) "" details
        end.

(** ** Calls in sequence, for any types *)

(** Sequential [verifyShape] calls, each with its document and type name;
    the state after the last one. *)
Fixpoint verifyShape_calls {Obj DatasetExt : Type} (w : World Obj DatasetExt)
    (calls : list (JsAny Obj * string)) (st : State DatasetExt)
  : State DatasetExt :=
  match calls with
  | [] => st
  | (vp, type) :: rest => verifyShape_calls w rest (snd (verifyShape w vp type st))
  end.

(** The world [w] with another answer to the shape requests. *)
Definition with_shape_answers {Obj DatasetExt : Type} (w : World Obj DatasetExt)
    (answers : list Request -> string -> Result (JsAny Obj))
  : World Obj DatasetExt :=
  mkWorld Obj DatasetExt (REGISTRY_URL w) (jsonld_canonize w) (n3_import w)
    (JSON_parse_ok w) (shacl_validate w) (http_get_implemented w) answers.

(** ** registry.service.ts: the certificate-chain check and the base URL *)

Module Registry.

(** A request of these two methods. *)
Inductive HttpCall : Type :=
| HttpGet (url : string)
| HttpPost (url : string) (certs : string).

(** What the two methods read besides [registryUrl]: the environment
    variable DISABLE_SIGNATURE_CHECK, the status of the answer to a POST
    (or its rejection) and the data of the answer to a GET. *)
Record Env : Type := mkEnv {
  DISABLE_SIGNATURE_CHECK : option string;
  http_post_status : list HttpCall -> string -> string -> Result Z;
  http_get_data : list HttpCall -> string -> Result string
}.

Section Methods.

Context {Obj DatasetExt : Type} (w : World Obj DatasetExt) (env : Env).

(** [process.env.DISABLE_SIGNATURE_CHECK === 'true'] *)
Definition signature_check_disabled : bool :=
  match DISABLE_SIGNATURE_CHECK env with
  | Some v => String.eqb v "true"
  | None => false
  end.

(** The [try] block of [isValidCertificateChain] (lines 15-23). *)
Definition isValidCertificateChain_try (raw : string) (log : list HttpCall)
  : Result bool * list HttpCall :=
  if signature_check_disabled then (Ok true, log)
  else
    let url := registryUrl w +:+ "/api/trustAnchor/chain" in
    match http_post_status env log url raw with
    | Ok status => (Ok (status =? 200), log ++ [HttpPost url raw])
    | Throw e => (Throw e, log ++ [HttpPost url raw])
    end.

(** The [catch] logs the error and the method ends without a [return]:
    the promise resolves to [undefined], here [None]. *)
Definition isValidCertificateChain (raw : string) (log : list HttpCall)
  : Result (option bool) * list HttpCall :=
  match isValidCertificateChain_try raw log with
  | (Ok b, log') => (Ok (Some b), log')
  | (Throw _, log') => (Ok None, log')
  end.

(** [getBaseUrl]: the fallback is [process.env.REGISTRY_URL], [None] when
    the variable is not set. *)
Definition getBaseUrl (log : list HttpCall)
  : Result (option string) * list HttpCall :=
  let url := registryUrl w +:+ "/base-url" in
  match http_get_data env log url with
  | Ok data => (Ok (Some data), log ++ [HttpGet url])
  | Throw _ => (Ok (REGISTRY_URL w), log ++ [HttpGet url])
  end.

End Methods.

End Registry.

(** ** The JWT converter: the registered claims it sets

    Times are the millisecond time values of [Date] objects, [None] for the
    time value NaN of an invalid date.  A time value is an integer of
    magnitude at most 8.64e15, for which [Math.trunc(t / 1000)] is the
    integer quotient rounded towards zero. *)

Module Jwt.

(** The fields of the payload that [convert] reads. *)
Record Payload : Type := mkPayload {
  issuer : option string;
  issuanceDate : option string;
  expirationDate : option string
}.

(** The collaborators: the parser of [new Date(string)], the clock of
    [new Date()] and [getDidWeb()]. *)
Record Env : Type := mkEnv {
  Date_parse : string -> option Z;
  Date_now : Z;
  getDidWeb : string
}.

Definition accept (type : string) : bool :=
  String.eqb type "application/vc+jwt" || String.eqb type "application/jwt".

(** [new Date(t)] for a number: an invalid date outside the range. *)
Definition Date_of_time (t : Z) : option Z :=
  if (Z.abs t <=? 8640000000000000) then Some t else None.

(** [(x && new Date(x)) || other]: a date object is truthy even when it is
    invalid. *)
Definition date_or (field : option string) (env : Env) (other : option Z) : option Z :=
  match field with
  | Some text => if truthy text then Date_parse env text else other
  | None => other
  end.

Definition issuance_of (env : Env) (value : Payload) : option Z :=
  date_or (issuanceDate value) env (Some (Date_now env)).

Definition exp_of (env : Env) (value : Payload) : option Z :=
  date_or (expirationDate value) env
    (match issuance_of env value with
     | Some t => Date_of_time (t + 60 * 60 * 1000)
     | None => None
     end).

(** [Math.trunc(date.getTime() / 1000)] *)
Definition seconds (time : option Z) : option Z :=
  match time with
  | Some t => Some (Z.quot t 1000)
  | None => None
  end.

(** [(value.issuer as string) || getDidWeb()] *)
Definition issuer_of (env : Env) (value : Payload) : string :=
  match issuer value with
  | Some iss => if truthy iss then iss else getDidWeb env
  | None => getDidWeb env
  end.

(** The arguments [convert] passes to [setIssuedAt], [setExpirationTime],
    [setIssuer] and [setAudience] (lines 68-81). *)
Record Registered : Type := mkRegistered {
  iat : option Z;
  exp : option Z;
  iss : string;
  aud : string
}.

Definition registered_claims (env : Env) (value : Payload) : Registered :=
  mkRegistered (seconds (issuance_of env value)) (seconds (exp_of env value))
    (issuer_of env value) (issuer_of env value).

End Jwt.

(** ** Concrete environments for the other services *)

Module Fixtures.

Definition check_disabled : Registry.Env :=
  Registry.mkEnv (Some "true")
    (fun _ _ _ => Throw (ExternalError "connect ECONNREFUSED"))
    (fun _ _ => Throw (ExternalError "timeout of 600ms exceeded")).

Definition registry_down : Registry.Env :=
  Registry.mkEnv None
    (fun _ _ _ => Throw (ExternalError "connect ECONNREFUSED"))
    (fun _ _ => Throw (ExternalError "timeout of 600ms exceeded")).

(** A clock and a date parser that knows the one date of the converter's
    test. *)
Definition jwt_env : Jwt.Env :=
  Jwt.mkEnv
    (fun text =>
       if String.eqb text "2020-01-01T00:00:00.000Z" then Some 1577836800000 else None)
    1700000000123
    "did:web:localhost%3A3000".

Definition dated_payload : Jwt.Payload :=
  Jwt.mkPayload None (Some "2020-01-01T00:00:00.000Z") None.

End Fixtures.

(** ** Canonical N-Quads text *)

(** The white-space characters: tab, line feed, vertical tab, form feed,
    carriage return and space. *)
Definition is_whitespace (c : ascii) : bool :=
  Ascii.eqb c "009" || Ascii.eqb c "010" || Ascii.eqb c "011"
  || Ascii.eqb c "012" || Ascii.eqb c "013" || Ascii.eqb c " ".

(** The text is empty or made of white space only. *)
Fixpoint whitespace_only (s : string) : bool :=
  match s with
  | EmptyString => true
  | String c s' => is_whitespace c && whitespace_only s'
  end.

(** What [jsonld.canonize] returns for the format 'application/n-quads':
    one line per quad, each made of the terms of the quad followed by
    " ." and a line feed; the empty text when there is no quad. *)
Definition nquads_text (statements : list string) : string :=
  fold_right (fun statement rest => statement +:+ " ." +:+ String newline rest)
    "" statements.

Definition canonical_text (text : string) : Prop :=
  exists statements, text = nquads_text statements.

(** * Lemmas on the primitives *)

Lemma append_cons (c : ascii) (s t : string) :
  String c s +:+ t = String c (s +:+ t).
Proof. reflexivity. Qed.

Lemma append_nil_l (t : string) : "" +:+ t = t.
Proof. reflexivity. Qed.

Lemma append_nil_r (s : string) : s +:+ "" = s.
Proof.
  induction s as [|c s IH]; [reflexivity |].
  rewrite append_cons. f_equal. exact IH.
Qed.

Lemma append_assoc (a b c : string) : (a +:+ b) +:+ c = a +:+ (b +:+ c).
Proof.
  induction a as [|x a IH]; [reflexivity |].
  rewrite !append_cons. f_equal. exact IH.
Qed.

Lemma append_inj_l (p a b : string) : p +:+ a = p +:+ b -> a = b.
Proof.
  induction p as [|x p IH]; intros H; [exact H |].
  rewrite !append_cons in H. injection H as H. now apply IH.
Qed.

Lemma prefix_spec (p s : string) :
  String.prefix p s = true <-> exists post, s = p +:+ post.
Proof.
  revert s. induction p as [|a p IH]; intros [|b s]; simpl.
  - split; [intros _; now exists "" | reflexivity].
  - split; [intros _; now exists (String b s) | reflexivity].
  - split; [discriminate | intros [post H]; discriminate].
  - destruct (Ascii.ascii_dec a b) as [->|Hne].
    + rewrite IH. split; intros [post H]; exists post.
      * rewrite append_cons. now rewrite H.
      * rewrite append_cons in H. now injection H.
    + split; [discriminate |].
      intros [post H]. rewrite append_cons in H. injection H as H1 H2. congruence.
Qed.

Lemma index_cons (pat : string) (b : ascii) (s : string) :
  String.index 0 pat (String b s) =
  if String.prefix pat (String b s) then Some 0%nat
  else match String.index 0 pat s with
       | Some n => Some (S n)
       | None => None
       end.
Proof. reflexivity. Qed.

Lemma index_occurs (pat s : string) :
  (exists n, String.index 0 pat s = Some n) <-> occurs_in pat s.
Proof.
  induction s as [|b s IH]; [simpl | rewrite index_cons].
  - destruct pat as [|a pat].
    + split; [intros _; exists "", ""; reflexivity | intros _; now exists 0%nat].
    + split; [intros [n H]; discriminate |].
      intros (pre & post & H). destruct pre; discriminate.
  - destruct (String.prefix pat (String b s)) eqn:Hp.
    + split; [intros _ | intros _; now exists 0%nat].
      apply prefix_spec in Hp as [post Hpost]. exists "", post. exact Hpost.
    + split.
      * intros [n H]. destruct (String.index 0 pat s) as [m|] eqn:Hi; [|discriminate].
        destruct IH as [IH1 _]. destruct IH1 as (pre & post & Hs); [now exists m |].
        exists (String b pre), post. rewrite append_cons. now rewrite Hs.
      * intros (pre & post & H). destruct pre as [|c pre].
        -- rewrite append_nil_l in H.
           assert (String.prefix pat (String b s) = true) as Hp'
             by (apply prefix_spec; now exists post).
           congruence.
        -- rewrite append_cons in H. injection H as H1 H2.
           destruct IH as [_ IH2]. destruct IH2 as [m Hm]; [now exists pre, post |].
           rewrite Hm. now exists (S m).
Qed.

Lemma indexOf_found (s pat : string) :
  (indexOf s pat >? -1) = true <-> occurs_in pat s.
Proof.
  rewrite <- index_occurs. unfold indexOf.
  destruct (String.index 0 pat s) as [n|].
  - split; [intros _; now exists n | intros _; apply Z.gtb_lt; lia].
  - split; [discriminate | intros [n H]; discriminate].
Qed.

Lemma indexOf_absent (s pat : string) :
  (indexOf s pat =? -1) = true <-> ~ occurs_in pat s.
Proof.
  rewrite <- index_occurs. unfold indexOf.
  destruct (String.index 0 pat s) as [n|].
  - split; [intros H; apply Z.eqb_eq in H; lia | intros H; exfalso; apply H; now exists n].
  - split; [intros _ [n H]; discriminate | reflexivity].
Qed.

#[global] Instance occurs_in_dec (pat s : string) : Decision (occurs_in pat s).
Proof.
  destruct (indexOf s pat >? -1) eqn:E.
  - left. now apply indexOf_found.
  - right. intros H. apply indexOf_found in H. congruence.
Defined.

Lemma skip_length (c : ascii) (s : string) :
  (String.length (skip c s) <= String.length s)%nat.
Proof.
  induction s as [|a s IH]; simpl; [lia |].
  destruct (Ascii.eqb a c); simpl; lia.
Qed.

Lemma skip_lt_without (s : string) : without_brackets (skip "<" s) = without_brackets s.
Proof.
  induction s as [|a s IH]; simpl; [reflexivity |].
  destruct (Ascii.eqb a "<") eqn:E; simpl; [exact IH |].
  now rewrite E.
Qed.

Lemma skip_gt_without (s : string) : without_brackets (skip ">" s) = without_brackets s.
Proof.
  induction s as [|a s IH]; simpl; [reflexivity |].
  destruct (Ascii.eqb a ">") eqn:E; simpl.
  - rewrite orb_true_r. exact IH.
  - now rewrite E.
Qed.

(** One match attempt of [/<*>*/] at the head of a non-empty string: the
    match is empty exactly when the first character is no angle bracket. *)
Lemma match_attempt (c : ascii) (s : string) :
  let rest := skip ">" (skip "<" (String c s)) in
  if Ascii.eqb c "<" || Ascii.eqb c ">"
  then (String.length rest <= String.length s)%nat
  else rest = String c s.
Proof.
  simpl. destruct (Ascii.eqb c "<") eqn:E1; simpl.
  - etransitivity; [apply skip_length | apply skip_length].
  - destruct (Ascii.eqb c ">") eqn:E2; simpl; [apply skip_length | reflexivity].
Qed.

Lemma replace_brackets_from_spec (fuel : nat) (s : string) :
  (String.length s <= fuel)%nat ->
  replace_brackets_from fuel s = without_brackets s.
Proof.
  revert s. induction fuel as [|fuel IH]; intros s Hlen.
  - destruct s; simpl in *; [reflexivity | lia].
  - destruct s as [|c s]; [reflexivity |].
    pose proof (match_attempt c s) as Hm.
    cbv zeta in Hm.
    change (replace_brackets_from (S fuel) (String c s)) with
      (if (String.length (skip ">" (skip "<" (String c s))) =? String.length (String c s))%nat
       then String c (replace_brackets_from fuel s)
       else replace_brackets_from fuel (skip ">" (skip "<" (String c s)))).
    change (without_brackets (String c s)) with
      (if Ascii.eqb c "<" || Ascii.eqb c ">" then without_brackets s
       else String c (without_brackets s)).
    simpl in Hlen.
    destruct (Ascii.eqb c "<" || Ascii.eqb c ">") eqn:E.
    + destruct (Nat.eqb_spec (String.length (skip ">" (skip "<" (String c s))))
                  (String.length (String c s))) as [Heq|Hne].
      * cbn [String.length] in Heq. lia.
      * rewrite IH by lia.
        rewrite skip_gt_without, skip_lt_without. simpl. now rewrite E.
    + rewrite Hm, Nat.eqb_refl. f_equal. apply IH. lia.
Qed.

(** [replace(/<*>*/g, '')] deletes every angle bracket, wherever it is. *)
Lemma replace_brackets_spec (s : string) :
  replace_brackets s = without_brackets s.
Proof. apply replace_brackets_from_spec. lia. Qed.

Lemma filter_filter_bool {A} (f g : A -> bool) (l : list A) :
  List.filter f (List.filter g l) = List.filter (fun x => g x && f x) l.
Proof.
  induction l as [|x l IH]; simpl; [reflexivity |].
  destruct (g x); simpl; [destruct (f x) |]; now rewrite IH.
Qed.

Lemma filter_bool_prop {A} (f : A -> bool) (P : A -> Prop)
    `{!forall x, Decision (P x)} (l : list A) :
  (forall x, f x = true <-> P x) -> List.filter f l = filter P l.
Proof.
  intros Hf. induction l as [|x l IH]; [reflexivity |].
  rewrite filter_cons. simpl. rewrite IH.
  destruct (decide (P x)) as [HP|HP].
  - apply Hf in HP. now rewrite HP.
  - destruct (f x) eqn:E; [| reflexivity]. apply Hf in E. contradiction.
Qed.

#[global] Instance kept_textually_dec (line : string) : Decision (kept_textually line).
Proof. unfold kept_textually. apply _. Defined.

Lemma split_without_sep (c : ascii) (s : string) :
  mentions c s = false -> split c s = [s].
Proof.
  induction s as [|a s IH]; simpl; [reflexivity |].
  intros H. apply orb_false_iff in H as [Ha Hs].
  rewrite Ha, (IH Hs). reflexivity.
Qed.

Lemma split_field (c : ascii) (s rest : string) :
  mentions c s = false ->
  split c (s +:+ String c rest) = s :: split c rest.
Proof.
  induction s as [|a s IH]; intros H.
  - rewrite append_nil_l. simpl. now rewrite Ascii.eqb_refl.
  - simpl in H. apply orb_false_iff in H as [Ha Hs].
    rewrite append_cons. simpl. rewrite Ha, (IH Hs). reflexivity.
Qed.

Lemma split_nonempty (c : ascii) (s : string) : split c s <> [].
Proof.
  destruct s as [|a s]; simpl; [discriminate |].
  destruct (Ascii.eqb a c); [discriminate |].
  destruct (split c s); discriminate.
Qed.

Lemma without_brackets_clean (s : string) :
  mentions "<" s = false -> mentions ">" s = false -> without_brackets s = s.
Proof.
  induction s as [|a s IH]; simpl; [reflexivity |].
  intros H1 H2. apply orb_false_iff in H1 as [H1 H1'].
  apply orb_false_iff in H2 as [H2 H2'].
  rewrite H1, H2. simpl. f_equal. now apply IH.
Qed.

Lemma without_brackets_app (a b : string) :
  without_brackets (a +:+ b) = without_brackets a +:+ without_brackets b.
Proof.
  induction a as [|x a IH]; [reflexivity |].
  rewrite append_cons. simpl.
  destruct (Ascii.eqb x "<" || Ascii.eqb x ">"); [exact IH |].
  rewrite append_cons. f_equal. exact IH.
Qed.

Lemma mentions_app (c : ascii) (a b : string) :
  mentions c (a +:+ b) = mentions c a || mentions c b.
Proof.
  induction a as [|x a IH]; [reflexivity |].
  rewrite append_cons. simpl. rewrite IH. now rewrite orb_assoc.
Qed.

Lemma object_term_third_field (line : string) : object_term line = third_field line.
Proof.
  unfold object_term, third_field, at_index.
  destruct (split " " line !! 2%nat); [| reflexivity].
  now rewrite replace_brackets_spec.
Qed.

Lemma array_map_ext {A B} (f g : A -> Result B) (l : list A) :
  (forall x, f x = g x) -> array_map f l = array_map g l.
Proof.
  intros H. induction l as [|x l IH]; simpl; [reflexivity |].
  now rewrite H, IH.
Qed.

(** * The type extractor *)

(** C8 (as the code has it): [getVPTypes] works on the text of each line.
    It returns, in input order, for every line in which the RDF type IRI
    occurs somewhere and none of the three bracketed marker IRIs occurs
    anywhere, the third space-separated field with every angle bracket
    removed.  For a line [s p <o> ...] whose fields hold no space and whose
    object holds no angle bracket that field is [o]. *)
Theorem getVPTypes_textual (text : string) :
  getVPTypes text
  = array_map third_field (filter kept_textually (split newline text))
  /\ forall s p o rest : string,
       mentions " " s = false -> mentions " " p = false ->
       mentions " " o = false -> mentions "<" o = false ->
       mentions ">" o = false ->
       third_field (s +:+ " " +:+ p +:+ " <" +:+ o +:+ "> " +:+ rest) = Ok o.
Proof.
  split.
  - unfold getVPTypes. rewrite !filter_filter_bool.
    rewrite (array_map_ext _ _ _ object_term_third_field). f_equal.
    apply filter_bool_prop. intros line. unfold kept_textually.
    rewrite !andb_true_iff, indexOf_found, !indexOf_absent. tauto.
  - intros s p o rest Hs Hp Ho Hlt Hgt. unfold third_field.
    assert (s +:+ " " +:+ p +:+ " <" +:+ o +:+ "> " +:+ rest
            = s +:+ String " " (p +:+ String " "
                 ((String "<" o +:+ ">") +:+ String " " rest))) as ->.
    { rewrite append_cons, !append_assoc. reflexivity. }
    rewrite (split_field _ _ _ Hs), (split_field _ _ _ Hp), split_field.
    + simpl. f_equal.
      rewrite without_brackets_app, (without_brackets_clean _ Hlt Hgt).
      simpl. apply append_nil_r.
    + rewrite append_cons. simpl. rewrite mentions_app, Ho. reflexivity.
Qed.

Lemma getVPTypes_textual_witness :
  getVPTypes (Demo.type_line "<did:ex:1>" "http://ex/T") = Ok ["http://ex/T"]
  /\ third_field ("_:b0" +:+ " " +:+ "<p>" +:+ " <" +:+ "http://ex/T" +:+ "> " +:+ ".")
     = Ok "http://ex/T".
Proof.
  split; [vm_compute; reflexivity |].
  apply (proj2 (getVPTypes_textual "")); reflexivity.
Defined.

(** C8 (as the claim has it) fails: a quad with another predicate whose
    object is the RDF type IRI is kept, and its object is returned. *)
Lemma getVPTypes_keeps_other_predicate :
  getVPTypes object_is_rdf_type = Ok [rdf_type]
  /\ spec_extractTypes object_is_rdf_type = []
  /\ getVPTypes object_is_rdf_type <> Ok (spec_extractTypes object_is_rdf_type).
Proof. vm_compute. repeat split. discriminate. Qed.

(** * The membership check *)

Lemma array_indexOf_from_found (i : Z) (arr : list string) (x : string) :
  -1 < i -> ((array_indexOf_from i arr x >? -1) = true <-> In x arr).
Proof.
  revert i. induction arr as [|y ys IH]; intros i Hi; simpl.
  - split; [discriminate | tauto].
  - destruct (String.eqb_spec y x) as [->|Hne].
    + split; [now left | intros _; apply Z.gtb_lt; lia].
    + rewrite IH by lia. split; [now right | intros [H|H]; [congruence | exact H]].
Qed.

Lemma array_indexOf_found (arr : list string) (x : string) :
  (array_indexOf arr x >? -1) = true <-> In x arr.
Proof. apply array_indexOf_from_found. lia. Qed.

Lemma fold_left_andb (l : list bool) (b : bool) :
  fold_left (fun previousValue currentValue => previousValue && currentValue) l b
  = b && forallb (fun x => x) l.
Proof.
  revert b. induction l as [|x l IH]; intros b; simpl.
  - now rewrite andb_true_r.
  - rewrite IH. now rewrite andb_assoc.
Qed.

Lemma credentialTypes_valid_spec (validTypes credentialTypes : list string) :
  exists b, credentialTypes_valid validTypes credentialTypes = Ok b
    /\ (b = true <->
        credentialTypes <> [] /\ forall t, In t credentialTypes -> In t validTypes).
Proof.
  unfold credentialTypes_valid. destruct credentialTypes as [|t ts].
  - exists false. split; [reflexivity |]. split; [discriminate | intros [H _]; congruence].
  - replace (Z.of_nat (length (t :: ts)) >? 0) with true
      by (symmetry; apply Z.gtb_lt; simpl; lia).
    simpl. eexists. split; [reflexivity |].
    rewrite fold_left_andb, andb_true_iff, array_indexOf_found, forallb_forall.
    split.
    + intros [Ht Hts]. split; [discriminate |].
      intros u [<-|Hu]; [exact Ht |].
      apply array_indexOf_found. apply Hts.
      apply in_map_iff. now exists u.
    + intros [_ H]. split; [apply H; now left |].
      intros b Hb. apply in_map_iff in Hb as (u & <- & Hu).
      apply array_indexOf_found. apply H. now right.
Qed.

(** C2: the membership check answers [true] exactly when the extracted
    list is non-empty and each of its elements is among the implemented
    names prefixed with the trust-framework namespace; an empty list gives
    [false], and so does [[A; B]] against the implemented set [{A}].
    [shouldCredentialBeValidated] is this check on the types extracted from
    the quads and the registry's implemented list. *)
Theorem membership_all_or_nothing (implemented extracted : list string) :
  let validTypes := map (fun v => trustframework_namespace +:+ v) implemented in
  (exists b, credentialTypes_valid validTypes extracted = Ok b
     /\ (b = true <->
         extracted <> [] /\ forall t, In t extracted -> In t validTypes))
  /\ credentialTypes_valid validTypes [] = Ok false
  /\ (forall A B : string, A <> B ->
        credentialTypes_valid
          (map (fun v => trustframework_namespace +:+ v) [A])
          [trustframework_namespace +:+ A; trustframework_namespace +:+ B]
        = Ok false)
  /\ (forall (Obj DatasetExt : Type) (w : World Obj DatasetExt)
        (quads : string) (st : State DatasetExt),
        http_get_implemented w (requests st)
          (registryUrl w +:+ "/shapes/implemented") = Ok implemented ->
        getVPTypes quads = Ok extracted ->
        fst (shouldCredentialBeValidated w quads st)
        = credentialTypes_valid validTypes extracted).
Proof.
  intros validTypes. split; [apply credentialTypes_valid_spec |].
  split; [reflexivity |]. split.
  - intros A B Hne.
    destruct (credentialTypes_valid_spec
                (map (fun v => trustframework_namespace +:+ v) [A])
                [trustframework_namespace +:+ A; trustframework_namespace +:+ B])
      as (b & -> & Hb).
    destruct b; [| reflexivity]. exfalso.
    destruct Hb as [Hb _]. destruct (Hb eq_refl) as [_ Hall].
    destruct (Hall (trustframework_namespace +:+ B)) as [H|[]]; [right; now left |].
    apply append_inj_l in H. congruence.
  - intros Obj DatasetExt w quads st Himpl Htypes.
    unfold shouldCredentialBeValidated, bind, getImplementedTrustFrameworkShapes, lift.
    rewrite Himpl, Htypes. reflexivity.
Qed.

Lemma membership_all_or_nothing_witness :
  fst (shouldCredentialBeValidated Demo.up
         (Demo.type_line "<did:ex:1>" (trustframework_namespace +:+ "Member"))
         initial_state)
  = credentialTypes_valid
      (map (fun v => trustframework_namespace +:+ v) ["Member"])
      [trustframework_namespace +:+ "Member"].
Proof.
  apply (proj2 (proj2 (proj2
    (membership_all_or_nothing ["Member"] [trustframework_namespace +:+ "Member"])))).
  - reflexivity.
  - vm_compute. reflexivity.
Defined.

(** * The validator wrapper *)

Lemma fold_left_details (details : list ReportDetail) (acc : string) :
  fold_left
    (fun errorMessage detail =>
       errorMessage +:+ " " +:+ d_path detail +:+ ": "
         +:+ message_or_default (d_message detail) +:+ ";")
    details acc
  = acc +:+ fold_right (fun d rest => detail_text d +:+ rest) "" details.
Proof.
  revert acc. induction details as [|d ds IH]; intros acc; simpl.
  - now rewrite append_nil_r.
  - rewrite IH. unfold detail_text. now rewrite !append_assoc.
Qed.

Lemma errorMessage_of_text (r : ReportResult) :
  errorMessage_of r = violation_text r.
Proof.
  unfold errorMessage_of, violation_text.
  destruct (r_detail r) as [|d ds] eqn:E.
  - simpl. now rewrite !append_nil_r.
  - replace (0 <? Z.of_nat (length (d :: ds))) with true
      by (symmetry; apply Z.ltb_lt; simpl; lia).
    rewrite fold_left_details. now rewrite !append_assoc.
Qed.

Lemma fold_left_push {A B} (g : A -> B) (l : list A) (acc : list B) :
  fold_left (fun results result => results ++ [g result]) l acc = acc ++ map g l.
Proof.
  revert acc. induction l as [|x l IH]; intros acc; simpl.
  - now rewrite app_nil_r.
  - rewrite IH. now rewrite <- app_assoc.
Qed.

(** C7: the code against the claim.  [validate] returns one string per
    violation of the engine's report, in report order, of the form
    "ERROR: <focusNodeValue> <path>: <message>", followed, when there are
    nested details, by "; DETAILS:" and " <path>: <message>;" for each
    detail in order.  The default text is never printed: [message] is an
    array, truthy even when empty, so a violation without message prints
    the empty text where the claim has the default text, and the claim's
    example comes out as
    "ERROR: ex:1 ex:name: ; DETAILS: ex:age: must be integer;". *)
Theorem validate_never_prints_default_text
    (Obj DatasetExt : Type) (w : World Obj DatasetExt)
    (shapes data : DatasetExt) (st : State DatasetExt) (report : ValidationReport) :
  shacl_validate w shapes data = Ok report ->
  validate w shapes data st
  = (Ok (mkValidationResult (report_conforms report)
           (map violation_text (report_results report))), st)
  /\ (forall f p ms ds,
        violation_text (mkReportResult f p ms ds)
        = "ERROR: " +:+ focus_text f +:+ " " +:+ p +:+ ": "
            +:+ String.concat "," ms
            +:+ match ds with
                | [] => ""
                | _ => "; DETAILS:"
                       +:+ fold_right
                             (fun d rest =>
                                (" " +:+ d_path d +:+ ": "
                                 +:+ String.concat "," (d_message d) +:+ ";") +:+ rest)
                             "" ds
                end)
  /\ violation_text
       (mkReportResult (Some "ex:1") "ex:name" []
          [mkDetail "ex:age" ["must be integer"]])
     = "ERROR: ex:1 ex:name: ; DETAILS: ex:age: must be integer;"
  /\ violation_text
       (mkReportResult (Some "ex:1") "ex:name" []
          [mkDetail "ex:age" ["must be integer"]])
     <> "ERROR: ex:1 ex:name: does not conform with the given shape; DETAILS: ex:age: must be integer;".
Proof.
  intros Hreport.
  split; [| split; [intros f p ms [|d ds]; reflexivity | split; [reflexivity | discriminate]]].
  unfold validate, bind, lift, ret. rewrite Hreport.
  rewrite fold_left_push. simpl. do 3 f_equal.
  apply map_ext. exact errorMessage_of_text.
Qed.

Lemma validate_never_prints_default_text_witness :
  validate Demo.failing_shapes ["fail"] [] initial_state
  = (Ok (mkValidationResult false
           ["ERROR: ex:1 ex:name: ; DETAILS: ex:age: must be integer;"]),
     initial_state).
Proof.
  apply (proj1 (validate_never_prints_default_text _ _ Demo.failing_shapes
                  ["fail"] [] initial_state
                  (mkReport false [Demo.sample_violation]) eq_refl)).
Defined.

(** * Orchestration: [verifyShape] *)

Section Orchestration.

Context {Obj DatasetExt : Type} (w : World Obj DatasetExt).

Implicit Types (st : State DatasetExt) (vp : JsAny Obj) (type quads : string).

(** [verifyShape] once canonicalisation and the membership gate have
    answered. *)
Lemma verifyShape_after_gate vp type st quads (should : bool) st1 :
  jsonld_canonize w vp = Ok quads ->
  shouldCredentialBeValidated w quads st = (Ok should, st1) ->
  verifyShape w vp type st
  = if negb should then (Throw (ConflictException mismatch_text), st1)
    else try_catch (verifyShape_try w vp type)
           (fun e => ret (mkValidationResult false [message e])) st1.
Proof.
  intros Hq Hgate. unfold verifyShape, bind, normalize, lift.
  rewrite Hq, Hgate. now destruct should.
Qed.

Lemma gate_state quads st :
  snd (shouldCredentialBeValidated w quads st)
  = mkState (cache st)
      (requests st ++ [GetImplemented (registryUrl w +:+ "/shapes/implemented")]).
Proof.
  unfold shouldCredentialBeValidated, bind, getImplementedTrustFrameworkShapes, lift.
  destruct (http_get_implemented w _ _); [| reflexivity].
  destruct (getVPTypes quads); reflexivity.
Qed.

Lemma loadFromJSONLDWithQuads_state (data : JsAny Obj) st :
  snd (loadFromJSONLDWithQuads w data st) = st.
Proof.
  unfold loadFromJSONLDWithQuads, bind, normalize, lift, throw.
  destruct (jsonld_canonize w data) as [quads|]; [| reflexivity].
  destruct (negb (truthy quads) || (Z.of_nat (String.length quads) =? 0)); reflexivity.
Qed.

Lemma validate_state (shapes data : DatasetExt) st :
  snd (validate w shapes data st) = st.
Proof.
  unfold validate, bind, lift, ret.
  destruct (shacl_validate w shapes data); reflexivity.
Qed.

Lemma loadShaclFromUrl_state type st :
  snd (loadShaclFromUrl w type st)
  = mkState (cache st)
      (requests st ++ [GetShape (registryUrl w +:+ "/shapes/" +:+ type)]).
Proof.
  unfold loadShaclFromUrl, bind, try_catch, getShape, throw.
  destruct (http_get_shape w _ _) as [response|]; [| reflexivity].
  destruct (isJsonString w response).
  - pose proof (loadFromJSONLDWithQuads_state response
      (mkState (cache st)
         (requests st ++ [GetShape (registryUrl w +:+ "/shapes/" +:+ type)]))) as H.
    destruct (loadFromJSONLDWithQuads w response _); exact H.
  - unfold loadFromTurtle, transformToStream, lift. reflexivity.
Qed.

(** What the [catch] of [verifyShape] does with a failure of the [try]
    block. *)
Lemma verifyShape_catch vp type st quads st1 e st2 :
  jsonld_canonize w vp = Ok quads ->
  shouldCredentialBeValidated w quads st = (Ok true, st1) ->
  verifyShape_try w vp type st1 = (Throw e, st2) ->
  verifyShape w vp type st = (Ok (mkValidationResult false [message e]), st2).
Proof.
  intros Hq Hgate Htry.
  rewrite (verifyShape_after_gate vp type st quads true st1 Hq Hgate).
  unfold try_catch, ret. simpl. now rewrite Htry.
Qed.

(** C1: when the membership check over the document's extracted types
    answers [false], [verifyShape] raises the ConflictException of the
    trust-framework mismatch and returns no ValidationResult at all; so it
    is whenever the extracted list is empty or holds a type that is not
    among the prefixed implemented names. *)
Theorem verifyShape_mismatch_raises vp type st quads :
  jsonld_canonize w vp = Ok quads ->
  (forall st1,
     shouldCredentialBeValidated w quads st = (Ok false, st1) ->
     verifyShape w vp type st = (Throw (ConflictException mismatch_text), st1)
     /\ forall r : ValidationResult, fst (verifyShape w vp type st) <> Ok r)
  /\ (forall implemented extracted,
        http_get_implemented w (requests st)
          (registryUrl w +:+ "/shapes/implemented") = Ok implemented ->
        getVPTypes quads = Ok extracted ->
        ~ (extracted <> []
           /\ forall t, In t extracted ->
                In t (map (fun v => trustframework_namespace +:+ v) implemented)) ->
        fst (verifyShape w vp type st) = Throw (ConflictException mismatch_text)).
Proof.
  intros Hq. split.
  - intros st1 Hgate.
    rewrite (verifyShape_after_gate vp type st quads false st1 Hq Hgate).
    split; [reflexivity | discriminate].
  - intros implemented extracted Himpl Htypes Hfail.
    destruct (credentialTypes_valid_spec
                (map (fun v => trustframework_namespace +:+ v) implemented) extracted)
      as (b & Hb & Hiff).
    assert (b = false) as -> by (destruct b; [exfalso; apply Hfail; now apply Hiff | reflexivity]).
    assert (shouldCredentialBeValidated w quads st
            = (Ok false, snd (shouldCredentialBeValidated w quads st))) as Hgate.
    { unfold shouldCredentialBeValidated, bind, getImplementedTrustFrameworkShapes, lift.
      rewrite Himpl, Htypes, Hb. reflexivity. }
    now rewrite (verifyShape_after_gate vp type st quads false _ Hq Hgate).
Qed.

(** The [try] block when the shape is not cached and the loader fails. *)
Lemma verifyShape_try_load_fails vp type st1 ds st2 e st3 :
  loadFromJSONLDWithQuads w vp st1 = (Ok ds, st2) ->
  isCached type st2 = (Ok false, st2) ->
  loadShaclFromUrl w type st2 = (Throw e, st3) ->
  verifyShape_try w vp type st1 = (Throw e, st3).
Proof.
  intros Hload Hc Hshape. unfold verifyShape_try, bind, getShaclShape.
  now rewrite Hload, Hc, Hshape.
Qed.

(** C4: once the membership gate has passed, whatever the [try] block
    raises is turned into [{conforms: false, results: [message]}] and the
    call itself raises nothing: so for a failure of the re-parse, of the
    shape resolution, and of the validation. *)
Theorem verifyShape_absorbs_failures vp type st quads st1 :
  jsonld_canonize w vp = Ok quads ->
  shouldCredentialBeValidated w quads st = (Ok true, st1) ->
  (forall e st2,
     verifyShape_try w vp type st1 = (Throw e, st2) ->
     verifyShape w vp type st = (Ok (mkValidationResult false [message e]), st2))
  /\ (forall r st2,
     verifyShape_try w vp type st1 = (Ok r, st2) ->
     verifyShape w vp type st = (Ok r, st2))
  /\ (exists r, fst (verifyShape w vp type st) = Ok r)
  /\ (forall e st2,
     loadFromJSONLDWithQuads w vp st1 = (Throw e, st2) ->
     verifyShape w vp type st = (Ok (mkValidationResult false [message e]), st2))
  /\ (forall ds e st3,
     loadFromJSONLDWithQuads w vp st1 = (Ok ds, st1) ->
     isCached type st1 = (Ok false, st1) ->
     getShaclShape w type st1 = (Throw e, st3) ->
     verifyShape w vp type st = (Ok (mkValidationResult false [message e]), st3))
  /\ (forall ds schema e,
     loadFromJSONLDWithQuads w vp st1 = (Ok ds, st1) ->
     cache st1 !! type = Some (mkEntry (Some schema)) ->
     shacl_validate w schema ds = Throw e ->
     verifyShape w vp type st = (Ok (mkValidationResult false [message e]), st1)).
Proof.
  intros Hq Hgate.
  assert (forall e st2,
            verifyShape_try w vp type st1 = (Throw e, st2) ->
            verifyShape w vp type st = (Ok (mkValidationResult false [message e]), st2))
    as Hcatch by (intros e st2; now apply verifyShape_catch with (quads := quads)).
  split; [exact Hcatch |].
  split; [| split; [| split; [| split]]].
  - rewrite (verifyShape_after_gate vp type st quads true st1 Hq Hgate).
    unfold try_catch, ret. simpl. intros r st2 ->. reflexivity.
  - rewrite (verifyShape_after_gate vp type st quads true st1 Hq Hgate).
    unfold try_catch, ret. simpl.
    destruct (verifyShape_try w vp type st1) as [[r|e] st2]; eexists; reflexivity.
  - intros e st2 Hload. apply Hcatch. unfold verifyShape_try, bind. now rewrite Hload.
  - intros ds e st3 Hload Hc Hshape. apply Hcatch.
    now apply (verifyShape_try_load_fails vp type st1 ds st1).
  - intros ds schema e Hload Hc Hval. apply Hcatch.
    unfold verifyShape_try, bind. rewrite Hload.
    unfold isCached, read_cached_shape. rewrite Hc. simpl. rewrite Hc. simpl.
    unfold validate, bind, lift. now rewrite Hval.
Qed.

(** C3 (as the code has it): a failure of the shape loader during
    [verifyShape] is caught like any other failure of the [try] block and
    returned as [{conforms: false, results: [message]}]; a registry failure
    reaches the boundary wrapped in a ConflictException. *)
Theorem verifyShape_absorbs_shape_load_failure vp type st quads st1 ds st2 e st3 :
  jsonld_canonize w vp = Ok quads ->
  shouldCredentialBeValidated w quads st = (Ok true, st1) ->
  loadFromJSONLDWithQuads w vp st1 = (Ok ds, st2) ->
  isCached type st2 = (Ok false, st2) ->
  loadShaclFromUrl w type st2 = (Throw e, st3) ->
  verifyShape w vp type st = (Ok (mkValidationResult false [message e]), st3)
  /\ (forall cause,
        http_get_shape w (requests st2) (registryUrl w +:+ "/shapes/" +:+ type)
        = Throw cause ->
        e = ConflictExceptionFrom cause).
Proof.
  intros Hq Hgate Hload Hc Hshape. split.
  - apply verifyShape_catch with (quads := quads) (st1 := st1); [exact Hq | exact Hgate |].
    now apply (verifyShape_try_load_fails vp type st1 ds st2).
  - intros cause Hhttp. revert Hshape.
    unfold loadShaclFromUrl, bind, try_catch, getShape, throw.
    rewrite Hhttp. congruence.
Qed.

End Orchestration.

Ltac by_evaluation := vm_compute; reflexivity.

Lemma verifyShape_mismatch_raises_witness :
  fst (verifyShape Demo.up Demo.unregistered_doc "trustframework" initial_state)
  = Throw (ConflictException mismatch_text).
Proof.
  apply (proj2 (verifyShape_mismatch_raises Demo.up Demo.unregistered_doc
    "trustframework" initial_state
    (Demo.type_line "<did:ex:2>" "Unregistered") eq_refl)
    ["Member"] ["Unregistered"] eq_refl ltac:(by_evaluation)).
  intros [_ Hall]. destruct (Hall "Unregistered") as [H|[]]; [now left | discriminate H].
Defined.

Lemma verifyShape_absorbs_failures_witness :
  fst (verifyShape Demo.down Demo.member_doc "trustframework" initial_state)
  = Ok (mkValidationResult false ["connect ECONNREFUSED"]).
Proof.
  pose (quads := Demo.type_line "<did:ex:1>" (trustframework_namespace +:+ "Member")).
  pose (st1 := snd (shouldCredentialBeValidated Demo.down quads initial_state)).
  rewrite (proj1 (verifyShape_absorbs_failures Demo.down Demo.member_doc
    "trustframework" initial_state quads st1 eq_refl ltac:(by_evaluation))
    (ConflictExceptionFrom (ExternalError "connect ECONNREFUSED"))
    (snd (verifyShape_try Demo.down Demo.member_doc "trustframework" st1))
    ltac:(by_evaluation)).
  reflexivity.
Defined.

Lemma verifyShape_absorbs_shape_load_failure_witness :
  fst (verifyShape Demo.down Demo.member_doc "trustframework" initial_state)
  = Ok (mkValidationResult false
          [message (ConflictExceptionFrom (ExternalError "connect ECONNREFUSED"))]).
Proof.
  pose (quads := Demo.type_line "<did:ex:1>" (trustframework_namespace +:+ "Member")).
  pose (st1 := snd (shouldCredentialBeValidated Demo.down quads initial_state)).
  rewrite (proj1 (verifyShape_absorbs_shape_load_failure Demo.down Demo.member_doc
    "trustframework" initial_state quads st1
    ["<did:ex:1> <" +:+ rdf_type +:+ "> <" +:+ trustframework_namespace +:+ "Member> ."] st1
    (ConflictExceptionFrom (ExternalError "connect ECONNREFUSED"))
    (snd (loadShaclFromUrl Demo.down "trustframework" st1))
    eq_refl ltac:(by_evaluation) ltac:(by_evaluation) ltac:(by_evaluation)
    ltac:(by_evaluation))).
  reflexivity.
Defined.

(** C3 (as the claim has it) fails: with the registry refusing the shape
    request the loader signals its failure, and [verifyShape] returns a
    non-conforming result instead of raising. *)
Lemma shape_load_failure_is_not_raised :
  fst (loadShaclFromUrl Demo.down "trustframework" initial_state)
  = Throw (ConflictExceptionFrom (ExternalError "connect ECONNREFUSED"))
  /\ fst (verifyShape Demo.down Demo.member_doc "trustframework" initial_state)
     = Ok (mkValidationResult false ["connect ECONNREFUSED"]).
Proof. split; by_evaluation. Qed.

(** * The guard of the canonical-quad path, and the cache *)

Lemma shape_fetches_implemented (log : list Request) (url : string) :
  shape_fetches (log ++ [GetImplemented url]) = shape_fetches log.
Proof.
  unfold shape_fetches. rewrite filter_app, length_app. simpl. lia.
Qed.

Lemma shape_fetches_shape (log : list Request) (url : string) :
  shape_fetches (log ++ [GetShape url]) = S (shape_fetches log).
Proof.
  unfold shape_fetches. rewrite filter_app, length_app. simpl. lia.
Qed.

(** What the shape write does to the reading of each name. *)
Lemma store_shape_lookup {DatasetExt : Type} (type : string) (schema : DatasetExt)
    (objects : gmap string (CacheEntry DatasetExt)) :
  objects !! type = Some (mkEntry None) ->
  store_shape type schema objects !! type = Some (mkEntry (Some schema)).
Proof.
  intros H. unfold store_shape.
  destruct (String.eqb_spec type "__proto__") as [->|Hne]; [| apply lookup_insert_eq].
  assert ((inherit_shape schema <$> objects) !! "__proto__"
          = Some (mkEntry (Some schema))) as H'
    by (rewrite lookup_fmap, H; reflexivity).
  cbv zeta. destruct ((inherit_shape schema <$> objects) !! "shape"); [exact H' |].
  rewrite lookup_insert_ne by discriminate. exact H'.
Qed.

Lemma store_shape_lookup_other {DatasetExt : Type} (type key : string)
    (schema : DatasetExt) (objects : gmap string (CacheEntry DatasetExt)) :
  key <> type ->
  store_shape type schema objects !! key
  = if String.eqb type "__proto__"
    then match objects !! key with
         | Some entry => Some (inherit_shape schema entry)
         | None => if String.eqb key "shape" then Some (mkEntry (Some schema)) else None
         end
    else objects !! key.
Proof.
  intros Hne. unfold store_shape.
  destruct (String.eqb_spec type "__proto__") as [->|Hproto];
    [| now apply lookup_insert_ne].
  cbv zeta.
  destruct ((inherit_shape schema <$> objects) !! "shape") as [e|] eqn:Hs.
  - rewrite lookup_fmap. destruct (objects !! key) as [entry|] eqn:Hk; [reflexivity |].
    destruct (String.eqb_spec key "shape") as [->|]; [| reflexivity].
    rewrite lookup_fmap, Hk in Hs. discriminate.
  - destruct (String.eqb_spec key "shape") as [->|Hshape].
    + rewrite lookup_insert_eq. rewrite lookup_fmap in Hs.
      destruct (objects !! "shape"); [discriminate | reflexivity].
    + rewrite lookup_insert_ne by congruence. rewrite lookup_fmap.
      destruct (objects !! key); reflexivity.
Qed.

Section CacheAndGuard.

Context {Obj DatasetExt : Type} (w : World Obj DatasetExt).

Implicit Types (st : State DatasetExt) (vp : JsAny Obj) (type quads : string).

Lemma truthy_nonempty (s : string) : s <> "" -> truthy s = true.
Proof.
  intros H. unfold truthy. destruct (String.eqb_spec s ""); [contradiction | reflexivity].
Qed.

(** The guard of [loadFromJSONLDWithQuads] rejects the empty quad
    string; a non-empty one goes to the parser, whose answer is the answer
    of the call. *)
Lemma loadFromJSONLDWithQuads_guard (data : JsAny Obj) st quads :
  jsonld_canonize w data = Ok quads ->
  (quads = "" ->
   loadFromJSONLDWithQuads w data st
   = (Throw (ConflictException "Unable to canonize your VerifiablePresentation"), st))
  /\ (quads <> "" ->
      loadFromJSONLDWithQuads w data st = (n3_import w (JsString quads), st)).
Proof.
  intros Hq. unfold loadFromJSONLDWithQuads, bind, normalize, lift, throw.
  rewrite Hq. split.
  - intros ->. reflexivity.
  - intros Hne. rewrite (truthy_nonempty _ Hne). simpl.
    destruct quads as [|c quads]; [contradiction | reflexivity].
Qed.

Lemma whitespace_only_app (a b : string) :
  whitespace_only (a +:+ b) = whitespace_only a && whitespace_only b.
Proof.
  induction a as [|c a IH]; [reflexivity |].
  rewrite append_cons. simpl. rewrite IH. now rewrite andb_assoc.
Qed.

(** A canonical text holds " ." in each of its lines: it is made of white
    space only when it has no line at all. *)
Lemma canonical_whitespace_is_empty (text : string) :
  canonical_text text -> whitespace_only text = true -> text = "".
Proof.
  intros [[|statement statements] ->]; [reflexivity |].
  simpl. rewrite whitespace_only_app. intros H.
  apply andb_true_iff in H as [_ H]. discriminate H.
Qed.

(** C5: for every document whose canonicalisation yields an empty or
    whitespace-only quad string, [loadFromJSONLDWithQuads] raises - the
    ConflictException "Unable to canonize your VerifiablePresentation" -
    and never yields a graph.  The quad string is what [jsonld.canonize]
    returns, a canonical N-Quads text. *)
Theorem loadFromJSONLDWithQuads_rejects_blank_text (data : JsAny Obj) st quads :
  jsonld_canonize w data = Ok quads ->
  canonical_text quads ->
  whitespace_only quads = true ->
  loadFromJSONLDWithQuads w data st
  = (Throw (ConflictException "Unable to canonize your VerifiablePresentation"), st)
  /\ forall graph : DatasetExt, fst (loadFromJSONLDWithQuads w data st) <> Ok graph.
Proof.
  intros Hq Hcanonical Hblank.
  pose proof (canonical_whitespace_is_empty quads Hcanonical Hblank) as Hempty.
  rewrite (proj1 (loadFromJSONLDWithQuads_guard data st quads Hq) Hempty).
  split; [reflexivity | discriminate].
Qed.

Lemma read_after_isCached type st :
  fst (isCached type st) = Ok true ->
  exists schema : DatasetExt, read_cached_shape type st = (Ok schema, st).
Proof.
  unfold isCached, read_cached_shape.
  destruct (cache st !! type) as [[[schema|]]|]; simpl; try discriminate.
  intros _. now exists schema.
Qed.

Lemma isCached_absent type st :
  cache st !! type = None -> isCached type st = (Ok false, st).
Proof. intros H. unfold isCached. now rewrite H. Qed.

Lemma write_cached_shape_absent type (schema : DatasetExt) st :
  cache st !! type = None ->
  write_cached_shape type schema st
  = (Throw (TypeError "Cannot set properties of undefined (setting 'shape')"), st).
Proof. intros H. unfold write_cached_shape. now rewrite H. Qed.

(** The [try] block for a type name whose cache lookup is [undefined]:
    it always ends in a failure, and leaves the cache as it was. *)
Lemma verifyShape_try_absent vp type st1 :
  cache st1 !! type = None ->
  exists e st2,
    verifyShape_try w vp type st1 = (Throw e, st2) /\ cache st2 = cache st1.
Proof.
  intros Hnone. unfold verifyShape_try, bind.
  pose proof (loadFromJSONLDWithQuads_state w vp st1) as Hst.
  destruct (loadFromJSONLDWithQuads w vp st1) as [[ds|e] st2]; simpl in Hst; subst st2;
    [| now exists e, st1].
  rewrite (isCached_absent type st1 Hnone). unfold getShaclShape.
  pose proof (loadShaclFromUrl_state w type st1) as Hst.
  destruct (loadShaclFromUrl w type st1) as [[schema|e] st3]; simpl in Hst; subst st3;
    [| eexists _, _; split; reflexivity].
  rewrite write_cached_shape_absent by exact Hnone.
  eexists _, _; split; reflexivity.
Qed.

(** C9 (as the code has it): for a type name for which [cache[type]] is
    [undefined] - no entry of the cache object and no name inherited from
    [Object.prototype] - a [verifyShape] call that passes the membership
    gate returns [{conforms: false, results: [message]}], never a
    conforming result, and the cache stays as it was; when the document and
    the shape both load, the message is that of the TypeError raised by the
    cache write. *)
Theorem verifyShape_uninitialised_type_never_conforms vp type st quads st1 :
  cache st !! type = None ->
  jsonld_canonize w vp = Ok quads ->
  shouldCredentialBeValidated w quads st = (Ok true, st1) ->
  (exists m st2,
     verifyShape w vp type st = (Ok (mkValidationResult false [m]), st2)
     /\ cache st2 = cache st)
  /\ (forall ds schema st3,
        loadFromJSONLDWithQuads w vp st1 = (Ok ds, st1) ->
        getShaclShape w type st1 = (Ok schema, st3) ->
        verifyShape w vp type st
        = (Ok (mkValidationResult false
                 ["Cannot set properties of undefined (setting 'shape')"]), st3)).
Proof.
  intros Hnone Hq Hgate.
  pose proof (gate_state w quads st) as Hst. rewrite Hgate in Hst. simpl in Hst.
  assert (cache st1 = cache st) as Hc by (now rewrite Hst).
  split.
  - destruct (verifyShape_try_absent vp type st1) as (e & st2 & Htry & Hc2);
      [now rewrite Hc |].
    exists (message e), st2. split; [| congruence].
    now apply verifyShape_catch with (quads := quads) (st1 := st1).
  - intros ds schema st3 Hload Hshape.
    apply verifyShape_catch with (quads := quads) (st1 := st1)
      (e := TypeError "Cannot set properties of undefined (setting 'shape')");
      [exact Hq | exact Hgate |].
    unfold verifyShape_try, bind. rewrite Hload.
    rewrite isCached_absent by (now rewrite Hc). rewrite Hshape.
    pose proof (loadShaclFromUrl_state w type st1) as Hst3.
    unfold getShaclShape in Hshape. rewrite Hshape in Hst3. simpl in Hst3.
    rewrite write_cached_shape_absent by (rewrite Hst3; simpl; now rewrite Hc).
    reflexivity.
Qed.

End CacheAndGuard.

Lemma loadFromJSONLDWithQuads_rejects_blank_text_witness :
  loadFromJSONLDWithQuads Demo.up Demo.empty_doc initial_state
  = (Throw (ConflictException "Unable to canonize your VerifiablePresentation"),
     initial_state).
Proof.
  apply (proj1 (loadFromJSONLDWithQuads_rejects_blank_text Demo.up Demo.empty_doc
                  initial_state "" eq_refl
                  (ex_intro _ [] eq_refl) eq_refl)).
Defined.

(** C9 (as the claim has it) fails: 'toString' is not 'trustframework' and
    the cache object has no entry of its own for it, yet [cache['toString']]
    is the function inherited from [Object.prototype]; the shape is written
    to it and the call returns a conforming result. *)
Lemma verifyShape_conforms_for_inherited_name :
  fst (verifyShape Demo.up Demo.member_doc "toString" initial_state)
  = Ok (mkValidationResult true [])
  /\ cache (snd (verifyShape Demo.up Demo.member_doc "toString" initial_state))
       !! "toString" = Some (mkEntry (Some ["ok"])).
Proof. split; by_evaluation. Qed.

Lemma verifyShape_uninitialised_type_never_conforms_witness :
  exists m,
    fst (verifyShape Demo.up Demo.member_doc "participant" initial_state)
    = Ok (mkValidationResult false [m]).
Proof.
  pose (quads := Demo.type_line "<did:ex:1>" (trustframework_namespace +:+ "Member")).
  destruct (proj1 (verifyShape_uninitialised_type_never_conforms Demo.up Demo.member_doc
    "participant" initial_state quads
    (snd (shouldCredentialBeValidated Demo.up quads initial_state))
    eq_refl eq_refl ltac:(by_evaluation))) as (m & st2 & H & _).
  exists m. rewrite H. reflexivity.
Defined.

Section SingleLoad.

Context {Obj DatasetExt : Type} (w : World Obj DatasetExt).

Implicit Types (st : State DatasetExt) (vp : JsAny Obj) (type quads : string).

Lemma try_catch_ret_state {A} (body : M DatasetExt A) (f : exn -> A) st :
  snd (try_catch body (fun e => ret (f e)) st) = snd (body st).
Proof. unfold try_catch, ret. destruct (body st) as [[a|e] st']; reflexivity. Qed.

(** The state after [verifyShape]: that after the gate when the call
    stops there, that after the [try] block otherwise. *)
Lemma verifyShape_state vp type st :
  snd (verifyShape w vp type st) = st
  \/ (exists quads,
        snd (verifyShape w vp type st) = snd (shouldCredentialBeValidated w quads st))
  \/ (exists quads,
        jsonld_canonize w vp = Ok quads
        /\ fst (shouldCredentialBeValidated w quads st) = Ok true
        /\ snd (verifyShape w vp type st)
           = snd (verifyShape_try w vp type (snd (shouldCredentialBeValidated w quads st)))).
Proof.
  unfold verifyShape, bind, normalize, lift.
  destruct (jsonld_canonize w vp) as [quads|e] eqn:Hq; [| now left].
  right.
  destruct (shouldCredentialBeValidated w quads st) as [[[|]|e] st1] eqn:Hgate.
  - right. exists quads. rewrite Hgate. simpl.
    split; [reflexivity |]. split; [reflexivity |]. apply try_catch_ret_state.
  - left. exists quads. now rewrite Hgate.
  - left. exists quads. now rewrite Hgate.
Qed.

(** The [try] block when the shape of [type] is in the cache: no loader
    call, the cached shape is the one validated against. *)
Lemma verifyShape_try_cached vp type st1 (schema : DatasetExt) :
  cache st1 !! type = Some (mkEntry (Some schema)) ->
  verifyShape_try w vp type st1
  = bind (loadFromJSONLDWithQuads w vp) (fun ds => validate w schema ds) st1.
Proof.
  intros Hc. unfold verifyShape_try, bind.
  pose proof (loadFromJSONLDWithQuads_state w vp st1) as Hst.
  destruct (loadFromJSONLDWithQuads w vp st1) as [[ds|e] st2]; simpl in Hst; subst st2;
    [| reflexivity].
  unfold isCached, read_cached_shape. rewrite Hc. simpl. rewrite Hc. reflexivity.
Qed.

Lemma verifyShape_try_cached_state vp type st1 (schema : DatasetExt) :
  cache st1 !! type = Some (mkEntry (Some schema)) ->
  snd (verifyShape_try w vp type st1) = st1.
Proof.
  intros Hc. rewrite (verifyShape_try_cached vp type st1 schema Hc). unfold bind.
  pose proof (loadFromJSONLDWithQuads_state w vp st1) as Hst.
  destruct (loadFromJSONLDWithQuads w vp st1) as [[ds|e] st2]; simpl in Hst; subst st2;
    [apply validate_state | reflexivity].
Qed.

Lemma verifyShape_cached_step vp type st (schema : DatasetExt) :
  cache st !! type = Some (mkEntry (Some schema)) ->
  cache (snd (verifyShape w vp type st)) = cache st
  /\ shape_fetches (requests (snd (verifyShape w vp type st)))
     = shape_fetches (requests st).
Proof.
  intros Hc.
  destruct (verifyShape_state vp type st) as [-> | [[quads ->] | (quads & _ & _ & ->)]].
  - now split.
  - rewrite gate_state. simpl. split; [reflexivity | apply shape_fetches_implemented].
  - rewrite verifyShape_try_cached_state with (schema := schema);
      rewrite gate_state; simpl; [| exact Hc].
    split; [reflexivity | apply shape_fetches_implemented].
Qed.

Lemma verifyShape_sequence_cached (calls : list (JsAny Obj)) type st (schema : DatasetExt) :
  cache st !! type = Some (mkEntry (Some schema)) ->
  cache (verifyShape_sequence w calls type st) = cache st
  /\ shape_fetches (requests (verifyShape_sequence w calls type st))
     = shape_fetches (requests st).
Proof.
  revert st. induction calls as [|vp calls IH]; intros st Hc; simpl; [now split |].
  destruct (verifyShape_cached_step vp type st schema Hc) as [Hc1 Hf1].
  destruct (IH (snd (verifyShape w vp type st))) as [Hc2 Hf2]; [now rewrite Hc1 |].
  split; congruence.
Qed.

Lemma validate_any_state (shapes data : DatasetExt) st st0 :
  validate w shapes data st = (fst (validate w shapes data st0), st).
Proof.
  unfold validate, bind, lift, ret.
  destruct (shacl_validate w shapes data); reflexivity.
Qed.

(** The first call that loads the shape for an entry of the cache stores
    it, at the price of one shape fetch. *)
Lemma verifyShape_first_load vp type st quads st1 ds (schema : DatasetExt) st2 :
  cache st !! type = Some (mkEntry None) ->
  jsonld_canonize w vp = Ok quads ->
  shouldCredentialBeValidated w quads st = (Ok true, st1) ->
  loadFromJSONLDWithQuads w vp st1 = (Ok ds, st1) ->
  getShaclShape w type st1 = (Ok schema, st2) ->
  cache (snd (verifyShape w vp type st)) !! type = Some (mkEntry (Some schema))
  /\ shape_fetches (requests (snd (verifyShape w vp type st)))
     = S (shape_fetches (requests st))
  /\ fst (verifyShape w vp type st)
     = match fst (validate w schema ds st2) with
       | Ok r => Ok r
       | Throw e => Ok (mkValidationResult false [message e])
       end.
Proof.
  intros Hc Hq Hgate Hload Hshape.
  pose proof (gate_state w quads st) as Hst1. rewrite Hgate in Hst1. simpl in Hst1.
  pose proof (loadShaclFromUrl_state w type st1) as Hst2.
  unfold getShaclShape in Hshape. rewrite Hshape in Hst2. simpl in Hst2.
  assert (cache st1 !! type = Some (mkEntry None)) as Hc1 by (rewrite Hst1; exact Hc).
  assert (cache st2 !! type = Some (mkEntry None)) as Hc2 by (rewrite Hst2; exact Hc1).
  assert (verifyShape w vp type st
          = (match fst (validate w schema ds st2) with
             | Ok r => Ok r
             | Throw e => Ok (mkValidationResult false [message e])
             end,
             mkState (store_shape type schema (cache st2)) (requests st2)))
    as ->.
  { rewrite (verifyShape_after_gate w vp type st quads true st1 Hq Hgate). simpl.
    unfold try_catch, verifyShape_try, bind, getShaclShape.
    rewrite Hload. unfold isCached. rewrite Hc1. simpl.
    rewrite Hshape. unfold write_cached_shape. rewrite Hc2.
    rewrite (validate_any_state schema ds _ st2).
    destruct (fst (validate w schema ds st2)); reflexivity. }
  simpl. rewrite (store_shape_lookup type schema _ Hc2), Hst2, Hst1. simpl.
  rewrite shape_fetches_shape, shape_fetches_implemented. repeat split.
Qed.

End SingleLoad.

(** C6 (as the code has it): the cache is created with the one entry
    'trustframework'.  A [verifyShape] call for 'trustframework' that
    loads the shape stores it, with one shape fetch; from then on every
    [verifyShape] call for 'trustframework' leaves the cache alone, issues
    no shape fetch and validates against the stored shape.
    [getShaclShape] does not look at the cache: each call issues a shape
    fetch. *)
Theorem trustframework_shape_loaded_once
    (Obj DatasetExt : Type) (w : World Obj DatasetExt) :
  (@initial_cache DatasetExt) !! "trustframework" = Some (mkEntry None)
  /\ (forall vp st quads st1 ds schema st2,
        cache st !! "trustframework" = Some (mkEntry None) ->
        jsonld_canonize w vp = Ok quads ->
        shouldCredentialBeValidated w quads st = (Ok true, st1) ->
        loadFromJSONLDWithQuads w vp st1 = (Ok ds, st1) ->
        getShaclShape w "trustframework" st1 = (Ok schema, st2) ->
        cache (snd (verifyShape w vp "trustframework" st)) !! "trustframework"
        = Some (mkEntry (Some schema))
        /\ shape_fetches (requests (snd (verifyShape w vp "trustframework" st)))
           = S (shape_fetches (requests st)))
  /\ (forall calls st schema,
        cache st !! "trustframework" = Some (mkEntry (Some schema)) ->
        cache (verifyShape_sequence w calls "trustframework" st) = cache st
        /\ shape_fetches (requests (verifyShape_sequence w calls "trustframework" st))
           = shape_fetches (requests st))
  /\ (forall vp st1 schema,
        cache st1 !! "trustframework" = Some (mkEntry (Some schema)) ->
        verifyShape_try w vp "trustframework" st1
        = bind (loadFromJSONLDWithQuads w vp) (fun ds => validate w schema ds) st1)
  /\ (forall X st,
        cache (snd (getShaclShape w X st)) = cache st
        /\ shape_fetches (requests (snd (getShaclShape w X st)))
           = S (shape_fetches (requests st))).
Proof.
  split; [reflexivity |]. split; [| split; [| split]].
  - intros vp st quads st1 ds schema st2 Hc Hq Hgate Hload Hshape.
    destruct (verifyShape_first_load w vp "trustframework" st quads st1 ds schema st2
                Hc Hq Hgate Hload Hshape) as (H1 & H2 & _).
    now split.
  - intros calls st schema Hc. now apply verifyShape_sequence_cached with (schema := schema).
  - intros vp st1 schema Hc. now apply verifyShape_try_cached.
  - intros X st. unfold getShaclShape. rewrite loadShaclFromUrl_state. simpl.
    split; [reflexivity | apply shape_fetches_shape].
Qed.

Lemma trustframework_shape_loaded_once_witness :
  cache (snd (verifyShape Demo.up Demo.member_doc "trustframework" initial_state))
    !! "trustframework" = Some (mkEntry (Some ["ok"]))
  /\ shape_fetches
       (requests (snd (verifyShape Demo.up Demo.member_doc "trustframework" initial_state)))
     = S (shape_fetches (requests (@initial_state (list string)))).
Proof.
  pose (quads := Demo.type_line "<did:ex:1>" (trustframework_namespace +:+ "Member")).
  pose (st1 := snd (shouldCredentialBeValidated Demo.up quads initial_state)).
  apply (proj1 (proj2 (trustframework_shape_loaded_once _ _ Demo.up))
           Demo.member_doc initial_state quads st1
           ["<did:ex:1> <" +:+ rdf_type +:+ "> <" +:+ trustframework_namespace +:+ "Member> ."]
           ["ok"] (snd (getShaclShape Demo.up "trustframework" st1))).
  all: by_evaluation.
Defined.

(** C6 (as the claim has it) fails: two [getShaclShape] calls in a row
    for one name both succeed and both query the registry. *)
Lemma getShaclShape_fetches_every_time :
  fst (getShaclShape Demo.up "X" initial_state) = Ok ["ok"]
  /\ fst (getShaclShape Demo.up "X" (snd (getShaclShape Demo.up "X" initial_state)))
     = Ok ["ok"]
  /\ shape_fetches (requests (snd (getShaclShape Demo.up "X" initial_state))) = 1%nat
  /\ shape_fetches
       (requests (snd (getShaclShape Demo.up "X"
                         (snd (getShaclShape Demo.up "X" initial_state))))) = 2%nat.
Proof. repeat split; by_evaluation. Qed.

(** * The namespace of the membership check *)

(** C10: the implemented names are qualified with the fixed namespace
    'https://registry.lab.gaia-x.eu/development/api/trusted-shape-registry/v1/shapes/jsonld/trustframework#',
    whatever REGISTRY_URL is: two runs on the same quads whose registry
    answers agree reach the same decision. *)
Theorem membership_namespace_is_fixed
    (Obj DatasetExt : Type) (w1 w2 : World Obj DatasetExt)
    (quads : string) (st1 st2 : State DatasetExt) :
  http_get_implemented w1 (requests st1) (registryUrl w1 +:+ "/shapes/implemented")
  = http_get_implemented w2 (requests st2) (registryUrl w2 +:+ "/shapes/implemented") ->
  fst (shouldCredentialBeValidated w1 quads st1)
  = fst (shouldCredentialBeValidated w2 quads st2)
  /\ forall implemented credentialTypes,
       http_get_implemented w1 (requests st1)
         (registryUrl w1 +:+ "/shapes/implemented") = Ok implemented ->
       getVPTypes quads = Ok credentialTypes ->
       fst (shouldCredentialBeValidated w1 quads st1)
       = credentialTypes_valid
           (map (fun v =>
              "https://registry.lab.gaia-x.eu/development/api/trusted-shape-registry/v1/shapes/jsonld/trustframework#"
              +:+ v) implemented)
           credentialTypes.
Proof.
  intros Hsame. split.
  - unfold shouldCredentialBeValidated, bind, getImplementedTrustFrameworkShapes, lift.
    rewrite Hsame.
    destruct (http_get_implemented w2 _ _) as [implemented|e]; [| reflexivity].
    destruct (getVPTypes quads); reflexivity.
  - intros implemented credentialTypes Himpl Htypes.
    unfold shouldCredentialBeValidated, bind, getImplementedTrustFrameworkShapes, lift.
    rewrite Himpl, Htypes. reflexivity.
Qed.

Lemma membership_namespace_is_fixed_witness :
  registryUrl Demo.up <> registryUrl Demo.elsewhere
  /\ fst (shouldCredentialBeValidated Demo.up
            (Demo.type_line "<did:ex:1>" (trustframework_namespace +:+ "Member"))
            initial_state)
     = fst (shouldCredentialBeValidated Demo.elsewhere
              (Demo.type_line "<did:ex:1>" (trustframework_namespace +:+ "Member"))
              initial_state).
Proof.
  split; [discriminate |].
  apply (proj1 (membership_namespace_is_fixed _ _ Demo.up Demo.elsewhere
                  (Demo.type_line "<did:ex:1>" (trustframework_namespace +:+ "Member"))
                  initial_state initial_state eq_refl)).
Defined.

(** * Further properties of the type extractor *)

Lemma getVPTypes_lines (text : string) :
  getVPTypes text
  = array_map third_field (filter kept_textually (split newline text)).
Proof.
  unfold getVPTypes. rewrite !filter_filter_bool.
  rewrite (array_map_ext _ _ _ object_term_third_field). f_equal.
  apply filter_bool_prop. intros line. unfold kept_textually.
  rewrite !andb_true_iff, indexOf_found, !indexOf_absent. tauto.
Qed.

Lemma split_app (c : ascii) (a b : string) :
  split c (a +:+ String c b) = split c a ++ split c b.
Proof.
  induction a as [|x a IH].
  - rewrite append_nil_l. simpl. now rewrite Ascii.eqb_refl.
  - rewrite append_cons. simpl. rewrite IH.
    destruct (Ascii.eqb x c); [reflexivity |].
    pose proof (split_nonempty c a) as Hne.
    destruct (split c a) as [|h t]; [contradiction | reflexivity].
Qed.

Lemma array_map_app {A B} (f : A -> Result B) (l1 l2 : list A) :
  array_map f (l1 ++ l2)
  = match array_map f l1 with
    | Throw e => Throw e
    | Ok r1 =>
        match array_map f l2 with
        | Throw e => Throw e
        | Ok r2 => Ok (r1 ++ r2)
        end
    end.
Proof.
  induction l1 as [|x l1 IH]; simpl.
  - destruct (array_map f l2); reflexivity.
  - destruct (f x) as [y|e]; [| reflexivity]. rewrite IH.
    destruct (array_map f l1) as [r1|e]; [| reflexivity].
    destruct (array_map f l2); reflexivity.
Qed.

Lemma array_map_Ok {A B} (f : A -> Result B) (l : list A) (r : list B) :
  array_map f l = Ok r ->
  forall y, In y r -> exists x, In x l /\ f x = Ok y.
Proof.
  revert r. induction l as [|x l IH]; simpl; intros r H y Hy.
  - injection H as <-. destruct Hy.
  - destruct (f x) as [y0|e] eqn:Hx; [| discriminate].
    destruct (array_map f l) as [r0|e]; [| discriminate].
    injection H as <-. destruct Hy as [<-|Hy].
    + exists x. split; [now left | exact Hx].
    + destruct (IH r0 eq_refl y Hy) as (x' & Hin & Hf). exists x'. split; [now right | exact Hf].
Qed.

Lemma array_map_Throw {A B} (f : A -> Result B) (l : list A) :
  (exists e, array_map f l = Throw e) <-> exists x e, In x l /\ f x = Throw e.
Proof.
  induction l as [|x l IH]; simpl.
  - split; [intros [e H]; discriminate | intros (x & e & [] & _)].
  - destruct (f x) as [y|e] eqn:Hx.
    + destruct (array_map f l) as [r|e] eqn:Hl.
      * split; [intros [e H]; discriminate |].
        intros (x' & e & [<-|Hin] & Hf); [congruence |].
        destruct IH as [_ IH]. destruct IH as [e' He']; [now exists x', e | discriminate].
      * split; [| intros _; now exists e].
        intros _. destruct IH as [IH _]. destruct IH as (x' & e' & Hin & Hf); [now exists e |].
        exists x', e'. split; [now right | exact Hf].
    + split; [| intros _; now exists e].
      intros _. exists x, e. split; [now left | exact Hx].
Qed.

Lemma kept_lines_app (a b : string) :
  filter kept_textually (split newline (a +:+ String newline b))
  = filter kept_textually (split newline a) ++ filter kept_textually (split newline b).
Proof. rewrite split_app. apply filter_app. Qed.

(** X1: Extracting from two texts joined by a line feed is extracting from
    each and appending, the failure of the first text coming first. *)
Theorem getVPTypes_of_joined_texts (a b : string) :
  getVPTypes (a +:+ String newline b)
  = match getVPTypes a with
    | Throw e => Throw e
    | Ok types_a =>
        match getVPTypes b with
        | Throw e => Throw e
        | Ok types_b => Ok (types_a ++ types_b)
        end
    end.
Proof. rewrite !getVPTypes_lines, kept_lines_app. apply array_map_app. Qed.

Lemma split_single_line (line : string) :
  mentions newline line = false -> split newline line = [line].
Proof. apply split_without_sep. Qed.

(** X2: A line that the textual filters do not keep (no RDF type IRI in it,
    or one of the three markers somewhere in it) contributes nothing. *)
Theorem getVPTypes_skips_line (line rest : string) :
  mentions newline line = false ->
  ~ kept_textually line ->
  getVPTypes (line +:+ String newline rest) = getVPTypes rest.
Proof.
  intros Hnl Hskip. rewrite !getVPTypes_lines, kept_lines_app.
  rewrite (split_single_line line Hnl), filter_cons.
  destruct (decide (kept_textually line)); [contradiction | reflexivity].
Qed.

Lemma getVPTypes_skips_line_witness :
  getVPTypes
    ("<did:ex:1> <" +:+ rdf_type +:+ "> " +:+ vc_marker +:+ " ."
     +:+ String newline (Demo.type_line "<did:ex:1>" "http://ex/T"))
  = getVPTypes (Demo.type_line "<did:ex:1>" "http://ex/T").
Proof.
  apply (getVPTypes_skips_line
           ("<did:ex:1> <" +:+ rdf_type +:+ "> " +:+ vc_marker +:+ " .")
           (Demo.type_line "<did:ex:1>" "http://ex/T")).
  - reflexivity.
  - intros (_ & _ & _ & Hvc). apply Hvc. apply indexOf_found. vm_compute. reflexivity.
Defined.

Lemma split_fields_without_sep (c : ascii) (s field : string) :
  In field (split c s) -> mentions c field = false.
Proof.
  revert field. induction s as [|x s IH]; simpl; intros field H.
  - destruct H as [<-|[]]. reflexivity.
  - destruct (Ascii.eqb x c) eqn:E.
    + destruct H as [<-|H]; [reflexivity | now apply IH].
    + pose proof (split_nonempty c s) as Hne.
      destruct (split c s) as [|h t]; [contradiction |].
      destruct H as [<-|H]; [| apply IH; now right].
      simpl. rewrite E. apply IH. now left.
Qed.

Lemma split_fields_keep_absence (c d : ascii) (s field : string) :
  mentions d s = false -> In field (split c s) -> mentions d field = false.
Proof.
  revert field. induction s as [|x s IH]; simpl; intros field Hd H.
  - destruct H as [<-|[]]. reflexivity.
  - apply orb_false_iff in Hd as [Hx Hs].
    destruct (Ascii.eqb x c).
    + destruct H as [<-|H]; [reflexivity | now apply IH].
    + pose proof (split_nonempty c s) as Hne.
      destruct (split c s) as [|h t]; [contradiction |].
      destruct H as [<-|H]; [| apply IH; [exact Hs | now right]].
      simpl. rewrite Hx. apply IH; [exact Hs | now left].
Qed.

Lemma without_brackets_keeps_absence (d : ascii) (s : string) :
  mentions d s = false -> mentions d (without_brackets s) = false.
Proof.
  induction s as [|x s IH]; simpl; [reflexivity |].
  intros H. apply orb_false_iff in H as [Hx Hs].
  destruct (Ascii.eqb x "<" || Ascii.eqb x ">"); [now apply IH |].
  simpl. rewrite Hx. now apply IH.
Qed.

Lemma without_brackets_has_none (s : string) :
  mentions "<" (without_brackets s) = false
  /\ mentions ">" (without_brackets s) = false.
Proof.
  induction s as [|x s [IH1 IH2]]; simpl; [now split |].
  destruct (Ascii.eqb x "<") eqn:E1; simpl; [now split |].
  destruct (Ascii.eqb x ">") eqn:E2; simpl; [now split |].
  rewrite E1, E2. now split.
Qed.

Lemma kept_line_in_text (text line : string) :
  In line (filter kept_textually (split newline text)) ->
  kept_textually line /\ In line (split newline text).
Proof.
  intros H. apply list_elem_of_In, list_elem_of_filter in H as [Hk Hin].
  split; [exact Hk | now apply list_elem_of_In].
Qed.

(** X3: Every type that [getVPTypes] returns is free of angle brackets, of
    spaces and of line feeds. *)
Theorem getVPTypes_terms_are_bare (text : string) (types : list string) :
  getVPTypes text = Ok types ->
  forall t, In t types ->
    mentions "<" t = false /\ mentions ">" t = false
    /\ mentions " " t = false /\ mentions newline t = false.
Proof.
  rewrite getVPTypes_lines. intros H t Ht.
  destruct (array_map_Ok _ _ _ H t Ht) as (line & Hline & Hfield).
  apply kept_line_in_text in Hline as [_ Hin].
  unfold third_field in Hfield.
  destruct (split " " line !! 2%nat) as [term|] eqn:Hterm; [| discriminate].
  injection Hfield as <-.
  assert (In term (split " " line)) as Hterm'
    by (apply list_elem_of_In, list_elem_of_lookup; now exists 2%nat).
  destruct (without_brackets_has_none term) as [H1 H2].
  repeat split; [exact H1 | exact H2 | |].
  - apply without_brackets_keeps_absence. now apply (split_fields_without_sep " " line).
  - apply without_brackets_keeps_absence.
    apply (split_fields_keep_absence " " newline line); [| exact Hterm'].
    now apply (split_fields_without_sep newline text).
Qed.

Lemma getVPTypes_terms_are_bare_witness :
  mentions "<" "http://ex/T" = false /\ mentions ">" "http://ex/T" = false
  /\ mentions " " "http://ex/T" = false /\ mentions newline "http://ex/T" = false.
Proof.
  apply (getVPTypes_terms_are_bare (Demo.type_line "<did:ex:1>" "http://ex/T")
           ["http://ex/T"]).
  - vm_compute. reflexivity.
  - now left.
Defined.

(** X4: [getVPTypes] fails exactly when a kept line has fewer than three
    space-separated fields, and then with the TypeError of reading
    [replace] off [undefined]. *)
Theorem getVPTypes_fails_on_short_line (text : string) :
  ((exists e, getVPTypes text = Throw e)
   <-> exists line, In line (split newline text) /\ kept_textually line
         /\ (length (split " " line) < 3)%nat)
  /\ forall e, getVPTypes text = Throw e ->
       e = TypeError "Cannot read properties of undefined (reading 'replace')".
Proof.
  rewrite getVPTypes_lines. split.
  - rewrite array_map_Throw. split.
    + intros (line & e & Hin & Hf). exists line.
      apply kept_line_in_text in Hin as [Hk Hin]. split; [exact Hin |]. split; [exact Hk |].
      unfold third_field in Hf.
      destruct (split " " line !! 2%nat) eqn:Hl; [discriminate |].
      apply lookup_ge_None in Hl. lia.
    + intros (line & Hin & Hk & Hlen). exists line. eexists. split.
      * apply list_elem_of_In, list_elem_of_filter. split; [exact Hk | now apply list_elem_of_In].
      * unfold third_field. rewrite (lookup_ge_None_2 (split " " line) 2); [reflexivity | lia].
  - generalize (filter kept_textually (split newline text)) as lines.
    induction lines as [|line lines IH]; simpl; intros e H; [discriminate |].
    unfold third_field in H at 1.
    destruct (split " " line !! 2%nat).
    + destruct (array_map third_field lines) as [r|e'] eqn:Hl; [discriminate |].
      injection H as <-. now apply IH.
    + now injection H as <-.
Qed.

(** * Further properties of the membership check *)

Lemma credentialTypes_valid_true (validTypes credentialTypes : list string) :
  credentialTypes_valid validTypes credentialTypes = Ok true
  <-> credentialTypes <> [] /\ forall t, In t credentialTypes -> In t validTypes.
Proof.
  destruct (credentialTypes_valid_spec validTypes credentialTypes) as (b & -> & Hb).
  rewrite <- Hb. split; [now intros [= ->] | now intros ->].
Qed.

Lemma credentialTypes_valid_bool (validTypes credentialTypes : list string) :
  credentialTypes_valid validTypes credentialTypes = Ok true
  \/ credentialTypes_valid validTypes credentialTypes = Ok false.
Proof.
  destruct (credentialTypes_valid_spec validTypes credentialTypes) as ([|] & -> & _); auto.
Qed.

Lemma in_prefixed (implemented : list string) (t : string) :
  In t (map (fun v => trustframework_namespace +:+ v) implemented)
  <-> exists name, In name implemented /\ t = trustframework_namespace +:+ name.
Proof.
  rewrite in_map_iff. split; intros (name & H1 & H2); exists name; [now split | now split].
Qed.

(** X5: The decision depends on the two lists as sets only: the order of the
    registry's list and of the extracted types, and repetitions in either,
    do not matter. *)
Theorem membership_ignores_order_and_repetition
    (implemented1 implemented2 extracted1 extracted2 : list string) :
  (forall x, In x implemented1 <-> In x implemented2) ->
  (forall x, In x extracted1 <-> In x extracted2) ->
  credentialTypes_valid
    (map (fun v => trustframework_namespace +:+ v) implemented1) extracted1
  = credentialTypes_valid
      (map (fun v => trustframework_namespace +:+ v) implemented2) extracted2.
Proof.
  intros Himpl Hext.
  set (v1 := map _ implemented1). set (v2 := map _ implemented2).
  assert (forall t, In t v1 <-> In t v2) as Hv.
  { intros t. unfold v1, v2. rewrite !in_prefixed.
    split; intros (name & Hin & ->); exists name; (split; [now apply Himpl | reflexivity]). }
  assert (credentialTypes_valid v1 extracted1 = Ok true
          <-> credentialTypes_valid v2 extracted2 = Ok true) as Hiff.
  { rewrite !credentialTypes_valid_true. split; intros [Hne Hall]; split.
    - destruct extracted1 as [|x l]; [congruence |].
      intros ->. apply (Hext x). now left.
    - intros t Ht. apply Hv, Hall, Hext, Ht.
    - destruct extracted2 as [|x l]; [congruence |].
      intros ->. apply (Hext x). now left.
    - intros t Ht. apply Hv, Hall, Hext, Ht. }
  destruct (credentialTypes_valid_bool v1 extracted1) as [H1|H1];
    destruct (credentialTypes_valid_bool v2 extracted2) as [H2|H2];
    rewrite ?H1, ?H2; try reflexivity.
  - apply Hiff in H1. congruence.
  - apply Hiff in H2. congruence.
Qed.

Lemma membership_ignores_order_and_repetition_witness :
  credentialTypes_valid
    (map (fun v => trustframework_namespace +:+ v) ["A"; "B"])
    [trustframework_namespace +:+ "B"]
  = credentialTypes_valid
      (map (fun v => trustframework_namespace +:+ v) ["B"; "A"; "B"])
      [trustframework_namespace +:+ "B"; trustframework_namespace +:+ "B"].
Proof.
  apply membership_ignores_order_and_repetition; intros x; simpl; tauto.
Defined.

(** X6: A presentation accepted against a list of implemented names is
    accepted against any list that holds those names. *)
Theorem membership_grows_with_registry
    (implemented implemented' extracted : list string) :
  (forall name, In name implemented -> In name implemented') ->
  credentialTypes_valid
    (map (fun v => trustframework_namespace +:+ v) implemented) extracted = Ok true ->
  credentialTypes_valid
    (map (fun v => trustframework_namespace +:+ v) implemented') extracted = Ok true.
Proof.
  intros Hsub. rewrite !credentialTypes_valid_true. intros [Hne Hall].
  split; [exact Hne |]. intros t Ht.
  apply in_prefixed. destruct (proj1 (in_prefixed implemented t) (Hall t Ht))
    as (name & Hin & ->). exists name. split; [now apply Hsub | reflexivity].
Qed.

Lemma membership_grows_with_registry_witness :
  credentialTypes_valid
    (map (fun v => trustframework_namespace +:+ v) ["Member"; "Offering"])
    [trustframework_namespace +:+ "Member"] = Ok true.
Proof.
  apply (membership_grows_with_registry ["Member"]).
  - intros name [<-|[]]. now left.
  - vm_compute. reflexivity.
Defined.

(** X7: The gate answers [true] only when every extracted type is the
    namespace followed by an implemented name; a single extracted type
    that does not start with the namespace makes it answer [false]. *)
Theorem gate_requires_the_namespace
    (Obj DatasetExt : Type) (w : World Obj DatasetExt)
    (quads : string) (st : State DatasetExt) (implemented extracted : list string) :
  http_get_implemented w (requests st) (registryUrl w +:+ "/shapes/implemented")
  = Ok implemented ->
  getVPTypes quads = Ok extracted ->
  (fst (shouldCredentialBeValidated w quads st) = Ok true ->
   forall t, In t extracted ->
     exists name, In name implemented /\ t = trustframework_namespace +:+ name)
  /\ (forall t, In t extracted ->
        String.prefix trustframework_namespace t = false ->
        fst (shouldCredentialBeValidated w quads st) = Ok false).
Proof.
  intros Himpl Htypes.
  assert (fst (shouldCredentialBeValidated w quads st)
          = credentialTypes_valid
              (map (fun v => trustframework_namespace +:+ v) implemented) extracted) as ->.
  { unfold shouldCredentialBeValidated, bind, getImplementedTrustFrameworkShapes, lift.
    rewrite Himpl, Htypes. reflexivity. }
  split.
  - intros Htrue t Ht. apply in_prefixed.
    apply credentialTypes_valid_true in Htrue as [_ Hall]. now apply Hall.
  - intros t Ht Hforeign.
    destruct (credentialTypes_valid_bool
                (map (fun v => trustframework_namespace +:+ v) implemented) extracted)
      as [Htrue|Hfalse]; [| exact Hfalse].
    apply credentialTypes_valid_true in Htrue as [_ Hall].
    apply Hall, in_prefixed in Ht as (name & _ & ->).
    assert (String.prefix trustframework_namespace (trustframework_namespace +:+ name) = true)
      by (apply prefix_spec; now exists name).
    congruence.
Qed.

Lemma gate_requires_the_namespace_witness :
  fst (shouldCredentialBeValidated Demo.up
         (Demo.type_line "<did:ex:2>" "https://elsewhere.example/Member") initial_state)
  = Ok false.
Proof.
  apply (proj2 (gate_requires_the_namespace _ _ Demo.up
                  (Demo.type_line "<did:ex:2>" "https://elsewhere.example/Member")
                  initial_state ["Member"] ["https://elsewhere.example/Member"]
                  eq_refl ltac:(by_evaluation))
           "https://elsewhere.example/Member").
  - now left.
  - vm_compute. reflexivity.
Defined.

(** * Further properties of the validator wrapper and of the loader *)

(** X8: [validate] leaves the process state alone, fails exactly when the
    engine fails and with the engine's error, and otherwise returns the
    engine's verdict with one message per violation, each starting with
    "ERROR: ". *)
Theorem validate_outcome
    (Obj DatasetExt : Type) (w : World Obj DatasetExt)
    (shapes data : DatasetExt) (st : State DatasetExt) :
  snd (validate w shapes data st) = st
  /\ (forall e, fst (validate w shapes data st) = Throw e
                <-> shacl_validate w shapes data = Throw e)
  /\ (forall r, fst (validate w shapes data st) = Ok r ->
        exists report,
          shacl_validate w shapes data = Ok report
          /\ conforms r = report_conforms report
          /\ length (results r) = length (report_results report)
          /\ forall s, In s (results r) -> String.prefix "ERROR: " s = true).
Proof.
  split; [apply validate_state |].
  unfold validate, bind, lift, ret.
  destruct (shacl_validate w shapes data) as [report|e0]; simpl.
  - split; [intros e; split; discriminate |].
    intros r [= <-]. exists report. simpl. rewrite fold_left_push. simpl.
    split; [reflexivity |]. split; [reflexivity |]. split; [apply length_map |].
    intros s Hs. apply in_map_iff in Hs as (v & <- & _).
    rewrite errorMessage_of_text. apply prefix_spec. eexists. reflexivity.
  - split; [intros e; split; intros [= ->]; reflexivity |].
    intros r H. discriminate.
Qed.

(** X9: What [loadShaclFromUrl] does with the registry's answer: a refused
    request is raised wrapped in a ConflictException that carries its
    message; a payload that is not JSON goes to the parser and a parser
    failure is raised as it is, unwrapped; a JSON payload goes through the
    canonical-quad path.  Each call logs one shape request for
    [<registryUrl>/shapes/<type>] and leaves the cache as it was. *)
Theorem loadShaclFromUrl_outcomes
    (Obj DatasetExt : Type) (w : World Obj DatasetExt)
    (type : string) (st : State DatasetExt) :
  let url := registryUrl w +:+ "/shapes/" +:+ type in
  let st' := mkState (cache st) (requests st ++ [GetShape url]) in
  snd (loadShaclFromUrl w type st) = st'
  /\ (forall cause,
        http_get_shape w (requests st) url = Throw cause ->
        fst (loadShaclFromUrl w type st) = Throw (ConflictExceptionFrom cause)
        /\ message (ConflictExceptionFrom cause) = message cause)
  /\ (forall response,
        http_get_shape w (requests st) url = Ok response ->
        JSON_parse_ok w response = false ->
        fst (loadShaclFromUrl w type st) = n3_import w response)
  /\ (forall response,
        http_get_shape w (requests st) url = Ok response ->
        JSON_parse_ok w response = true ->
        fst (loadShaclFromUrl w type st) = fst (loadFromJSONLDWithQuads w response st')).
Proof.
  intros url st'. split; [apply loadShaclFromUrl_state |].
  unfold loadShaclFromUrl, bind, try_catch, getShape, throw, isJsonString.
  fold url. fold st'.
  split; [intros cause ->; split; reflexivity |].
  split; intros response -> Hjson; rewrite Hjson; [reflexivity |].
  destruct (loadFromJSONLDWithQuads w response st') as [[d|e] st2]; reflexivity.
Qed.

Lemma loadShaclFromUrl_outcomes_witness :
  fst (loadShaclFromUrl Demo.down "trustframework" initial_state)
  = Throw (ConflictExceptionFrom (ExternalError "connect ECONNREFUSED")).
Proof.
  apply (proj1 (proj2 (loadShaclFromUrl_outcomes _ _ Demo.down "trustframework"
                         initial_state))
           (ExternalError "connect ECONNREFUSED") eq_refl).
Defined.

(** * Further properties of [verifyShape] *)

Section CallEffects.

Context {Obj DatasetExt : Type} (w : World Obj DatasetExt).

Implicit Types (st : State DatasetExt) (vp : JsAny Obj) (type quads key : string).

(** The state after the [try] block: untouched, or one shape request
    more, or one shape request more and the loaded shape stored in the
    empty entry of [type]. *)
Lemma verifyShape_try_steps vp type st1 :
  let fetched :=
    mkState (cache st1)
      (requests st1 ++ [GetShape (registryUrl w +:+ "/shapes/" +:+ type)]) in
  snd (verifyShape_try w vp type st1) = st1
  \/ (snd (verifyShape_try w vp type st1) = fetched
      /\ (cache st1 !! type = None
          \/ exists e, cache st1 !! type = Some (mkEntry None)
                       /\ fst (loadShaclFromUrl w type st1) = Throw e))
  \/ (exists schema,
        cache st1 !! type = Some (mkEntry None)
        /\ fst (loadShaclFromUrl w type st1) = Ok schema
        /\ snd (verifyShape_try w vp type st1)
           = mkState (store_shape type schema (cache fetched)) (requests fetched)).
Proof.
  intros fetched. unfold verifyShape_try, bind.
  pose proof (loadFromJSONLDWithQuads_state w vp st1) as Hst.
  destruct (loadFromJSONLDWithQuads w vp st1) as [[ds|e] st2]; simpl in Hst; subst st2;
    [| now left].
  unfold isCached, getShaclShape.
  pose proof (loadShaclFromUrl_state w type st1) as Hload. fold fetched in Hload.
  destruct (cache st1 !! type) as [[[schema|]]|] eqn:Hc; simpl.
  - left. unfold read_cached_shape. rewrite Hc. simpl. apply validate_state.
  - destruct (loadShaclFromUrl w type st1) as [[schema|e] st3]; simpl in Hload; subst st3.
    + right. right. exists schema. split; [reflexivity |]. split; [reflexivity |].
      unfold write_cached_shape. simpl. rewrite Hc. apply validate_state.
    + right. left. split; [reflexivity |]. right. now exists e.
  - right. left. split; [| now left].
    destruct (loadShaclFromUrl w type st1) as [[schema|e] st3]; simpl in Hload; subst st3;
      [| reflexivity].
    unfold write_cached_shape. simpl. rewrite Hc. reflexivity.
Qed.

(** One call and the cache: it is as before, or the entry of the call's
    type had no shape and the loaded one was written to it. *)
Lemma verifyShape_cache_step vp type st :
  cache (snd (verifyShape w vp type st)) = cache st
  \/ (exists schema,
        cache st !! type = Some (mkEntry None)
        /\ cache (snd (verifyShape w vp type st)) = store_shape type schema (cache st)).
Proof.
  destruct (verifyShape_state w vp type st) as [-> | [[quads ->] | (quads & _ & _ & ->)]].
  - now left.
  - rewrite gate_state. now left.
  - pose proof (gate_state w quads st) as Hg.
    set (st1 := snd (shouldCredentialBeValidated w quads st)) in *.
    assert (cache st1 = cache st) as Hc by (now rewrite Hg).
    destruct (verifyShape_try_steps vp type st1)
      as [-> | [[-> _] | (schema & Hempty & _ & ->)]]; simpl.
    + now left.
    + now left.
    + right. exists schema. rewrite Hc in *. now split.
Qed.

(** The shape write, seen from a name: a stored shape stays, an object
    stays, and only 'shape' can appear where nothing was. *)
Lemma store_shape_keeps type (schema : DatasetExt)
    (objects : gmap string (CacheEntry DatasetExt)) key :
  objects !! type = Some (mkEntry None) ->
  (forall stored,
     objects !! key = Some (mkEntry (Some stored)) ->
     store_shape type schema objects !! key = Some (mkEntry (Some stored)))
  /\ (is_Some (objects !! key) -> is_Some (store_shape type schema objects !! key))
  /\ (key <> "shape" -> objects !! key = None ->
      store_shape type schema objects !! key = None).
Proof.
  intros Htype.
  destruct (decide (key = type)) as [->|Hne].
  - rewrite (store_shape_lookup type schema objects Htype), Htype.
    split; [intros stored H; discriminate |]. split; [intros _; eauto | discriminate].
  - rewrite (store_shape_lookup_other type key schema objects Hne).
    destruct (String.eqb type "__proto__"); [| repeat split; auto].
    destruct (objects !! key) as [entry|] eqn:Hk.
    + split; [intros stored [= ->]; reflexivity |]. split; [intros _; eauto | discriminate].
    + split; [discriminate |]. split; [intros [x Hx]; discriminate |].
      intros Hshape _. destruct (String.eqb_spec key "shape"); [contradiction | reflexivity].
Qed.

Lemma initial_cache_lookup_None key :
  key <> "trustframework" -> ~ In key object_prototype_names ->
  (@initial_cache DatasetExt) !! key = None.
Proof.
  intros Htf Hnames. unfold initial_cache.
  rewrite lookup_insert_ne by congruence.
  apply not_elem_of_list_to_map_1. intros Hin. apply Hnames.
  apply list_elem_of_In. exact Hin.
Qed.

(** X10: Over any sequence of calls, for any documents and type names: a
    stored shape is never replaced or removed, a name that [cache[name]]
    resolves keeps resolving, and the only name that can start to resolve
    is 'shape' (after a shape was written through '__proto__').  From the
    cache as created, [cache[name]] stays [undefined] for every name other
    than 'trustframework', the names of [Object.prototype] and 'shape'. *)
Theorem cache_entries_are_stable (calls : list (JsAny Obj * string)) st key :
  (forall schema,
     cache st !! key = Some (mkEntry (Some schema)) ->
     cache (verifyShape_calls w calls st) !! key = Some (mkEntry (Some schema)))
  /\ (is_Some (cache st !! key) ->
      is_Some (cache (verifyShape_calls w calls st) !! key))
  /\ (key <> "shape" -> cache st !! key = None ->
      cache (verifyShape_calls w calls st) !! key = None)
  /\ (key <> "trustframework" -> ~ In key object_prototype_names -> key <> "shape" ->
      cache (verifyShape_calls w calls initial_state) !! key = None).
Proof.
  assert (forall st0,
            (forall schema,
               cache st0 !! key = Some (mkEntry (Some schema)) ->
               cache (verifyShape_calls w calls st0) !! key = Some (mkEntry (Some schema)))
            /\ (is_Some (cache st0 !! key) ->
                is_Some (cache (verifyShape_calls w calls st0) !! key))
            /\ (key <> "shape" -> cache st0 !! key = None ->
                cache (verifyShape_calls w calls st0) !! key = None)) as Hall.
  { induction calls as [|[vp type] calls IH]; intros st0; simpl; [now repeat split |].
    destruct (IH (snd (verifyShape w vp type st0))) as (IH1 & IH2 & IH3).
    destruct (verifyShape_cache_step vp type st0) as [Heq | (schema & Hempty & Heq)];
      rewrite Heq in IH1, IH2, IH3.
    - now repeat split.
    - destruct (store_shape_keeps type schema (cache st0) key Hempty) as (K1 & K2 & K3).
      split; [intros stored H; apply IH1, K1, H |].
      split; [intros H; apply IH2, K2, H |].
      intros Hshape H. apply IH3; [exact Hshape | now apply K3]. }
  destruct (Hall st) as (H1 & H2 & H3).
  split; [exact H1 |]. split; [exact H2 |]. split; [exact H3 |].
  intros Htf Hnames Hshape.
  apply (proj2 (proj2 (Hall initial_state))); [exact Hshape |].
  now apply initial_cache_lookup_None.
Qed.

(** X11: One call issues no request, or the query for the implemented list, or
    that query followed by one shape request: never more, and never a
    shape request without the query before it. *)
Theorem verifyShape_requests vp type st :
  let implemented_query := GetImplemented (registryUrl w +:+ "/shapes/implemented") in
  let shape_request := GetShape (registryUrl w +:+ "/shapes/" +:+ type) in
  requests (snd (verifyShape w vp type st)) = requests st
  \/ requests (snd (verifyShape w vp type st)) = requests st ++ [implemented_query]
  \/ requests (snd (verifyShape w vp type st))
     = requests st ++ [implemented_query; shape_request].
Proof.
  intros q r.
  destruct (verifyShape_state w vp type st) as [-> | [[quads ->] | (quads & _ & _ & ->)]].
  - now left.
  - rewrite gate_state. right. now left.
  - pose proof (gate_state w quads st) as Hg.
    set (st1 := snd (shouldCredentialBeValidated w quads st)) in *.
    destruct (verifyShape_try_steps vp type st1)
      as [-> | [[-> _] | (schema & _ & _ & ->)]]; rewrite Hg; simpl.
    + right. now left.
    + right. right. now rewrite <- app_assoc.
    + right. right. now rewrite <- app_assoc.
Qed.

End CallEffects.

Lemma cache_entries_are_stable_witness :
  cache (verifyShape_calls Demo.up
           [(Demo.member_doc, "participant"); (Demo.member_doc, "toString");
            (Demo.member_doc, "__proto__"); (Demo.unregistered_doc, "participant")]
           initial_state) !! "participant" = None.
Proof.
  apply (proj2 (proj2 (proj2 (cache_entries_are_stable Demo.up
    [(Demo.member_doc, "participant"); (Demo.member_doc, "toString");
     (Demo.member_doc, "__proto__"); (Demo.unregistered_doc, "participant")]
    initial_state "participant")))).
  - discriminate.
  - simpl. intuition discriminate.
  - discriminate.
Defined.

Section Outcomes.

Context {Obj DatasetExt : Type} (w : World Obj DatasetExt).

Implicit Types (st : State DatasetExt) (vp : JsAny Obj) (type quads : string).

Lemma gate_result quads st :
  fst (shouldCredentialBeValidated w quads st)
  = match http_get_implemented w (requests st) (registryUrl w +:+ "/shapes/implemented") with
    | Throw e => Throw e
    | Ok implemented =>
        match getVPTypes quads with
        | Throw e => Throw e
        | Ok extracted =>
            credentialTypes_valid
              (map (fun v => trustframework_namespace +:+ v) implemented) extracted
        end
    end.
Proof.
  unfold shouldCredentialBeValidated, bind, getImplementedTrustFrameworkShapes, lift.
  destruct (http_get_implemented w _ _); [| reflexivity].
  destruct (getVPTypes quads); reflexivity.
Qed.

Lemma gate_pair quads st :
  shouldCredentialBeValidated w quads st
  = (fst (shouldCredentialBeValidated w quads st),
     mkState (cache st)
       (requests st ++ [GetImplemented (registryUrl w +:+ "/shapes/implemented")])).
Proof.
  pose proof (gate_state w quads st) as H.
  destruct (shouldCredentialBeValidated w quads st) as [r s]. simpl in *. now subst.
Qed.

(** X12: The errors [verifyShape] raises: the canonicaliser's, the registry's
    on the implemented-list query, the TypeError of the type extractor, and
    the ConflictException of a gate that answers [false]; nothing else.
    When it raises, the cache is as before and no shape was requested. *)
Theorem verifyShape_raised_errors vp type st (e : exn) :
  (fst (verifyShape w vp type st) = Throw e
   <-> jsonld_canonize w vp = Throw e
       \/ exists quads,
            jsonld_canonize w vp = Ok quads
            /\ (http_get_implemented w (requests st)
                  (registryUrl w +:+ "/shapes/implemented") = Throw e
                \/ (exists implemented,
                      http_get_implemented w (requests st)
                        (registryUrl w +:+ "/shapes/implemented") = Ok implemented
                      /\ getVPTypes quads = Throw e)
                \/ (fst (shouldCredentialBeValidated w quads st) = Ok false
                    /\ e = ConflictException mismatch_text)))
  /\ (fst (verifyShape w vp type st) = Throw e ->
      cache (snd (verifyShape w vp type st)) = cache st
      /\ shape_fetches (requests (snd (verifyShape w vp type st)))
         = shape_fetches (requests st)).
Proof.
  destruct (jsonld_canonize w vp) as [quads|e0] eqn:Hq.
  2:{ assert (verifyShape w vp type st = (Throw e0, st)) as ->
        by (unfold verifyShape, bind, normalize, lift; now rewrite Hq).
      simpl. split; [| now split].
      split; [intros [= ->]; now left |].
      intros [[= ->] | (quads & Hq' & _)]; [reflexivity | discriminate]. }
  pose proof (gate_pair quads st) as Hpair.
  pose proof (gate_result quads st) as Hres.
  destruct (fst (shouldCredentialBeValidated w quads st)) as [[|]|e1] eqn:Hgate.
  - rewrite (verifyShape_after_gate w vp type st quads true _ Hq Hpair). simpl.
    assert (forall e', fst (try_catch (verifyShape_try w vp type)
              (fun e0 => ret (mkValidationResult false [message e0]))
              (mkState (cache st)
                 (requests st ++ [GetImplemented (registryUrl w +:+ "/shapes/implemented")])))
            <> Throw e') as Hno.
    { intros e'. unfold try_catch, ret.
      destruct (verifyShape_try w vp type _) as [[r|e2] st2]; discriminate. }
    split; [| intros H; now apply Hno in H].
    split; [intros H; now apply Hno in H |].
    intros [H | (quads' & [= <-] & [H | [(impl & H1 & H2) | [H _]]])]; try congruence.
    + rewrite H in Hres. discriminate.
    + rewrite H1, H2 in Hres. discriminate.
  - rewrite (verifyShape_after_gate w vp type st quads false _ Hq Hpair). simpl.
    split; [| intros _; split; [reflexivity | apply shape_fetches_implemented]].
    split.
    + intros [= <-]. right. exists quads. split; [reflexivity |]. right. right. now split.
    + intros [H | (quads' & [= <-] & [H | [(impl & H1 & H2) | [_ ->]]])]; try discriminate;
        try reflexivity.
      * rewrite H in Hres. discriminate.
      * rewrite H1, H2 in Hres. discriminate.
  - assert (verifyShape w vp type st
            = (Throw e1, mkState (cache st)
                 (requests st ++ [GetImplemented (registryUrl w +:+ "/shapes/implemented")])))
      as ->.
    { unfold verifyShape, bind, normalize, lift. rewrite Hq, Hpair. reflexivity. }
    simpl. split; [| intros _; split; [reflexivity | apply shape_fetches_implemented]].
    split.
    + intros [= <-]. right. exists quads. split; [reflexivity |].
      destruct (http_get_implemented w _ _) as [impl|e2]; [| left; congruence].
      right. left. exists impl. split; [reflexivity |].
      destruct (getVPTypes quads) as [ext|e3]; [| congruence].
      destruct (credentialTypes_valid_bool
                  (map (fun v => trustframework_namespace +:+ v) impl) ext); congruence.
    + intros [H | (quads' & [= <-] & [H | [(impl & H1 & H2) | [H _]]])]; try congruence.
      * rewrite H in Hres. congruence.
      * rewrite H1, H2 in Hres. congruence.
Qed.

End Outcomes.

Section Verdicts.

Context {Obj DatasetExt : Type} (w : World Obj DatasetExt).

Implicit Types (st : State DatasetExt) (vp : JsAny Obj) (type quads : string).

Lemma loadFromJSONLDWithQuads_Ok vp st1 ds st2 quads :
  jsonld_canonize w vp = Ok quads ->
  loadFromJSONLDWithQuads w vp st1 = (Ok ds, st2) ->
  quads <> "" /\ n3_import w (JsString quads) = Ok ds /\ st2 = st1.
Proof.
  intros Hq. unfold loadFromJSONLDWithQuads, bind, normalize, lift, throw. rewrite Hq.
  destruct quads as [|c quads]; simpl; [discriminate |].
  intros [= H ->]. repeat split; [discriminate | exact H].
Qed.

Lemma validate_Ok (shapes data : DatasetExt) st r st' :
  validate w shapes data st = (Ok r, st') ->
  exists report,
    shacl_validate w shapes data = Ok report
    /\ r = mkValidationResult (report_conforms report)
             (map violation_text (report_results report))
    /\ st' = st.
Proof.
  unfold validate, bind, lift, ret.
  destruct (shacl_validate w shapes data) as [report|e]; [| discriminate].
  intros [= <- <-]. exists report. rewrite fold_left_push. simpl.
  repeat split. f_equal. apply map_ext. exact errorMessage_of_text.
Qed.

(** X13: A conforming result is the engine's verdict and nothing else: when
    [verifyShape] returns [conforms: true], the document canonicalised to
    a non-empty text, the gate answered [true], the text parsed to a graph,
    the engine found that graph conforming to a shape, the messages are
    those of the engine's report, and that shape is the one stored for the
    type when the call ends. *)
Theorem verifyShape_conforming_is_engine_verdict vp type st r st' :
  verifyShape w vp type st = (Ok r, st') ->
  conforms r = true ->
  exists quads ds schema report,
    jsonld_canonize w vp = Ok quads /\ quads <> ""
    /\ fst (shouldCredentialBeValidated w quads st) = Ok true
    /\ n3_import w (JsString quads) = Ok ds
    /\ shacl_validate w schema ds = Ok report
    /\ report_conforms report = true
    /\ results r = map violation_text (report_results report)
    /\ cache st' !! type = Some (mkEntry (Some schema)).
Proof.
  intros Hrun Hconf.
  destruct (jsonld_canonize w vp) as [quads|e0] eqn:Hq.
  2:{ unfold verifyShape, bind, normalize, lift in Hrun. rewrite Hq in Hrun. discriminate. }
  destruct (shouldCredentialBeValidated w quads st) as [[[|]|e1] st1] eqn:Hgate.
  2:{ rewrite (verifyShape_after_gate w vp type st quads false st1 Hq Hgate) in Hrun.
      discriminate. }
  2:{ unfold verifyShape, bind, normalize, lift in Hrun. rewrite Hq, Hgate in Hrun.
      discriminate. }
  rewrite (verifyShape_after_gate w vp type st quads true st1 Hq Hgate) in Hrun.
  simpl in Hrun. unfold try_catch, ret in Hrun.
  destruct (verifyShape_try w vp type st1) as [[r'|e] st2] eqn:Htry.
  2:{ injection Hrun as <- <-. discriminate. }
  injection Hrun as -> ->.
  unfold verifyShape_try, bind in Htry.
  destruct (loadFromJSONLDWithQuads w vp st1) as [[ds|e] st2] eqn:Hload; [| discriminate].
  destruct (loadFromJSONLDWithQuads_Ok vp st1 ds st2 quads Hq Hload) as (Hne & Hparse & ->).
  exists quads, ds.
  unfold isCached, getShaclShape in Htry.
  destruct (cache st1 !! type) as [[[schema|]]|] eqn:Hc; simpl in Htry.
  - unfold read_cached_shape in Htry. rewrite Hc in Htry. simpl in Htry.
    destruct (validate_Ok schema ds st1 r st' Htry) as (report & Hval & -> & ->).
    exists schema, report. simpl in *.
    repeat split; try assumption; try reflexivity. now rewrite Hgate.
  - pose proof (loadShaclFromUrl_state w type st1) as Hst.
    destruct (loadShaclFromUrl w type st1) as [[schema|e] st3]; [| discriminate].
    simpl in Hst. unfold write_cached_shape in Htry.
    assert (cache st3 !! type = Some (mkEntry None)) as Hc3 by (now rewrite Hst).
    rewrite Hc3 in Htry.
    destruct (validate_Ok schema ds _ r st' Htry) as (report & Hval & -> & ->).
    exists schema, report. simpl in *.
    repeat split; try assumption; try reflexivity; [now rewrite Hgate |].
    now apply store_shape_lookup.
  - pose proof (loadShaclFromUrl_state w type st1) as Hst.
    destruct (loadShaclFromUrl w type st1) as [[schema|e] st3]; [| discriminate].
    simpl in Hst. unfold write_cached_shape in Htry.
    assert (cache st3 !! type = None) as Hc3 by (now rewrite Hst).
    rewrite Hc3 in Htry. discriminate.
Qed.

(** X14: A load that fails is not remembered: when the entry of the type is
    empty and the loader fails, the call returns the loader's message as a
    non-conforming result, the entry is still empty, and one shape request
    was spent. *)
Theorem failed_load_is_not_cached vp type st quads st1 ds e st2 :
  cache st !! type = Some (mkEntry None) ->
  jsonld_canonize w vp = Ok quads ->
  shouldCredentialBeValidated w quads st = (Ok true, st1) ->
  loadFromJSONLDWithQuads w vp st1 = (Ok ds, st1) ->
  loadShaclFromUrl w type st1 = (Throw e, st2) ->
  verifyShape w vp type st = (Ok (mkValidationResult false [message e]), st2)
  /\ cache st2 = cache st
  /\ shape_fetches (requests st2) = S (shape_fetches (requests st)).
Proof.
  intros Hc Hq Hgate Hload Hshape.
  pose proof (gate_state w quads st) as Hst1. rewrite Hgate in Hst1. simpl in Hst1.
  pose proof (loadShaclFromUrl_state w type st1) as Hst2.
  rewrite Hshape in Hst2. simpl in Hst2.
  split; [| rewrite Hst2, Hst1; simpl; split;
            [reflexivity
            | now rewrite shape_fetches_shape, shape_fetches_implemented]].
  apply verifyShape_catch with (quads := quads) (st1 := st1); [exact Hq | exact Hgate |].
  apply (verifyShape_try_load_fails w vp type st1 ds st1); [exact Hload | | exact Hshape].
  unfold isCached. rewrite Hst1. simpl. now rewrite Hc.
Qed.

(** X15: Once the shape of a type is stored, the registry's shape endpoint no
    longer matters: the call gives the same result and the same state
    whatever that endpoint would answer. *)
Theorem stored_shape_needs_no_shape_endpoint vp type st (schema : DatasetExt)
    (answers : list Request -> string -> Result (JsAny Obj)) :
  cache st !! type = Some (mkEntry (Some schema)) ->
  verifyShape (with_shape_answers w answers) vp type st = verifyShape w vp type st.
Proof.
  intros Hc.
  destruct (jsonld_canonize w vp) as [quads|e0] eqn:Hq.
  2:{ unfold verifyShape, bind, normalize, lift. simpl. now rewrite Hq. }
  pose proof (gate_state w quads st) as Hst1.
  destruct (shouldCredentialBeValidated w quads st) as [[should|e1] st1] eqn:Hgate.
  2:{ unfold verifyShape, bind, normalize, lift. simpl. rewrite Hq.
      change (shouldCredentialBeValidated (with_shape_answers w answers) quads st)
        with (shouldCredentialBeValidated w quads st).
      now rewrite Hgate. }
  simpl in Hst1.
  rewrite (verifyShape_after_gate w vp type st quads should st1 Hq Hgate).
  rewrite (verifyShape_after_gate (with_shape_answers w answers) vp type st quads should st1
             Hq Hgate).
  destruct should; simpl; [| reflexivity].
  assert (cache st1 !! type = Some (mkEntry (Some schema))) as Hc1 by (now rewrite Hst1).
  unfold try_catch.
  rewrite (verifyShape_try_cached w vp type st1 schema Hc1).
  rewrite (verifyShape_try_cached (with_shape_answers w answers) vp type st1 schema Hc1).
  reflexivity.
Qed.

End Verdicts.

Lemma verifyShape_conforming_is_engine_verdict_witness :
  exists quads ds schema report,
    jsonld_canonize Demo.up Demo.member_doc = Ok quads /\ quads <> ""
    /\ fst (shouldCredentialBeValidated Demo.up quads initial_state) = Ok true
    /\ n3_import Demo.up (JsString quads) = Ok ds
    /\ shacl_validate Demo.up schema ds = Ok report
    /\ report_conforms report = true
    /\ [] = map violation_text (report_results report)
    /\ cache (snd (verifyShape Demo.up Demo.member_doc "trustframework" initial_state))
         !! "trustframework" = Some (mkEntry (Some schema)).
Proof.
  apply (verifyShape_conforming_is_engine_verdict Demo.up Demo.member_doc
           "trustframework" initial_state (mkValidationResult true [])
           (snd (verifyShape Demo.up Demo.member_doc "trustframework" initial_state))).
  - by_evaluation.
  - reflexivity.
Defined.

Lemma failed_load_is_not_cached_witness :
  cache (snd (verifyShape Demo.down Demo.member_doc "trustframework" initial_state))
  = initial_cache.
Proof.
  pose (quads := Demo.type_line "<did:ex:1>" (trustframework_namespace +:+ "Member")).
  pose (st1 := snd (shouldCredentialBeValidated Demo.down quads initial_state)).
  destruct (failed_load_is_not_cached Demo.down Demo.member_doc "trustframework"
    initial_state quads st1
    ["<did:ex:1> <" +:+ rdf_type +:+ "> <" +:+ trustframework_namespace +:+ "Member> ."]
    (ConflictExceptionFrom (ExternalError "connect ECONNREFUSED"))
    (snd (loadShaclFromUrl Demo.down "trustframework" st1))
    eq_refl eq_refl ltac:(by_evaluation) ltac:(by_evaluation) ltac:(by_evaluation))
    as (Hrun & Hcache & _).
  rewrite Hrun. exact Hcache.
Defined.

Lemma stored_shape_needs_no_shape_endpoint_witness :
  verifyShape (with_shape_answers Demo.up
                 (fun _ _ => Throw (ExternalError "connect ECONNREFUSED")))
    Demo.member_doc "trustframework"
    (snd (verifyShape Demo.up Demo.member_doc "trustframework" initial_state))
  = verifyShape Demo.up Demo.member_doc "trustframework"
      (snd (verifyShape Demo.up Demo.member_doc "trustframework" initial_state)).
Proof.
  apply (stored_shape_needs_no_shape_endpoint Demo.up Demo.member_doc "trustframework"
           (snd (verifyShape Demo.up Demo.member_doc "trustframework" initial_state))
           ["ok"]).
  by_evaluation.
Defined.

(** * The other methods of the registry service *)

(** X18: [isValidCertificateChain] never raises.  With DISABLE_SIGNATURE_CHECK
    equal to 'true' it answers [true] without any request.  Otherwise it
    posts the chain once, answers [true] exactly when the status is 200,
    [false] for another status, and [undefined] - not [false] - when the
    request is rejected. *)
Theorem isValidCertificateChain_answers
    (Obj DatasetExt : Type) (w : World Obj DatasetExt) (env : Registry.Env)
    (raw : string) (log : list Registry.HttpCall) :
  let url := registryUrl w +:+ "/api/trustAnchor/chain" in
  (exists answer, fst (Registry.isValidCertificateChain w env raw log) = Ok answer)
  /\ (Registry.DISABLE_SIGNATURE_CHECK env = Some "true" ->
      Registry.isValidCertificateChain w env raw log = (Ok (Some true), log))
  /\ (Registry.DISABLE_SIGNATURE_CHECK env <> Some "true" ->
      snd (Registry.isValidCertificateChain w env raw log)
      = log ++ [Registry.HttpPost url raw]
      /\ (fst (Registry.isValidCertificateChain w env raw log) = Ok (Some true)
          <-> Registry.http_post_status env log url raw = Ok 200)
      /\ (forall status,
            Registry.http_post_status env log url raw = Ok status -> status <> 200 ->
            fst (Registry.isValidCertificateChain w env raw log) = Ok (Some false))
      /\ (forall e,
            Registry.http_post_status env log url raw = Throw e ->
            fst (Registry.isValidCertificateChain w env raw log) = Ok None)).
Proof.
  intros url.
  unfold Registry.isValidCertificateChain, Registry.isValidCertificateChain_try,
    Registry.signature_check_disabled.
  fold url. split; [| split].
  - destruct (Registry.DISABLE_SIGNATURE_CHECK env) as [v|];
      [destruct (String.eqb v "true") |];
      try (eexists; reflexivity);
      destruct (Registry.http_post_status env log url raw); eexists; reflexivity.
  - intros ->. reflexivity.
  - intros Hoff.
    assert (match Registry.DISABLE_SIGNATURE_CHECK env with
            | Some v => String.eqb v "true"
            | None => false
            end = false) as ->.
    { destruct (Registry.DISABLE_SIGNATURE_CHECK env) as [v|]; [| reflexivity].
      destruct (String.eqb_spec v "true") as [->|]; [congruence | reflexivity]. }
    destruct (Registry.http_post_status env log url raw) as [status|e0]; simpl.
    + split; [reflexivity |]. split; [| split].
      * destruct (Z.eqb_spec status 200) as [->|Hne]; split; congruence.
      * intros status' [= <-] Hne.
        destruct (Z.eqb_spec status 200); [contradiction | reflexivity].
      * intros e H. discriminate.
    + split; [reflexivity |]. split; [split; discriminate |].
      split; [intros status H; discriminate | reflexivity].
Qed.

(** X19: [getBaseUrl] never raises and sends one request to
    [<registryUrl>/base-url].  When the request is rejected it answers the
    environment variable REGISTRY_URL as it is: [undefined] when the
    variable is not set, although the request went to the default
    registry, and [registryUrl] when the variable is set and not empty. *)
Theorem getBaseUrl_fallback
    (Obj DatasetExt : Type) (w : World Obj DatasetExt) (env : Registry.Env)
    (log : list Registry.HttpCall) :
  let url := registryUrl w +:+ "/base-url" in
  snd (Registry.getBaseUrl w env log) = log ++ [Registry.HttpGet url]
  /\ (forall data,
        Registry.http_get_data env log url = Ok data ->
        fst (Registry.getBaseUrl w env log) = Ok (Some data))
  /\ (forall e,
        Registry.http_get_data env log url = Throw e ->
        fst (Registry.getBaseUrl w env log) = Ok (REGISTRY_URL w)
        /\ (REGISTRY_URL w = None ->
            fst (Registry.getBaseUrl w env log) = Ok None
            /\ registryUrl w = "https://registry.gaia-x.eu/development")
        /\ (forall u, REGISTRY_URL w = Some u -> u <> "" ->
              fst (Registry.getBaseUrl w env log) = Ok (Some (registryUrl w)))).
Proof.
  intros url. unfold Registry.getBaseUrl. fold url.
  destruct (Registry.http_get_data env log url) as [data|e0]; simpl.
  - split; [reflexivity |]. split; [now intros data' [= <-] | intros e H; discriminate].
  - split; [reflexivity |]. split; [intros data H; discriminate |].
    intros e _. split; [reflexivity |]. split.
    + intros Hnone. unfold registryUrl. rewrite Hnone. now split.
    + intros u Hu Hne. unfold registryUrl. rewrite Hu.
      unfold truthy. destruct (String.eqb_spec u ""); [contradiction | reflexivity].
Qed.

Lemma isValidCertificateChain_answers_witness :
  Registry.isValidCertificateChain Demo.up Fixtures.check_disabled "chain" []
  = (Ok (Some true), []).
Proof.
  apply (proj1 (proj2 (isValidCertificateChain_answers _ _ Demo.up
                         Fixtures.check_disabled "chain" []))).
  reflexivity.
Defined.

Lemma getBaseUrl_fallback_witness :
  fst (Registry.getBaseUrl Demo.up Fixtures.registry_down []) = Ok None
  /\ registryUrl Demo.up = "https://registry.gaia-x.eu/development".
Proof.
  apply (proj2 (proj2 (getBaseUrl_fallback _ _ Demo.up Fixtures.registry_down []))
           (ExternalError "timeout of 600ms exceeded") eq_refl).
  reflexivity.
Defined.

(** * The registered claims of the JWT converter *)

(** X20: Without an expiration date in the payload, and for an issuance
    time at or after the epoch: when the issuance time is at least one hour
    before the end of the range of dates (8640000000000000 ms), the token
    expires exactly 3600 seconds after it was issued; in the last hour of
    that range the expiry is an invalid date and [setExpirationTime]
    receives NaN.  The audience is always the issuer. *)
Theorem jwt_default_lifetime_is_one_hour
    (env : Jwt.Env) (value : Jwt.Payload) (t : Z) :
  (Jwt.expirationDate value = None \/ Jwt.expirationDate value = Some "") ->
  Jwt.issuance_of env value = Some t ->
  0 <= t ->
  Jwt.iat (Jwt.registered_claims env value) = Some (Z.quot t 1000)
  /\ Jwt.aud (Jwt.registered_claims env value) = Jwt.iss (Jwt.registered_claims env value)
  /\ (t <= 8640000000000000 - 3600000 ->
      Jwt.exp (Jwt.registered_claims env value) = Some (Z.quot t 1000 + 3600))
  /\ (8640000000000000 - 3600000 < t ->
      Jwt.exp (Jwt.registered_claims env value) = None).
Proof.
  intros Hexp Hiss Ht. unfold Jwt.registered_claims. simpl.
  rewrite Hiss. simpl. split; [reflexivity |]. split; [reflexivity |].
  assert (Jwt.exp_of env value = Jwt.Date_of_time (t + 3600000)) as ->.
  { unfold Jwt.exp_of, Jwt.date_or. rewrite Hiss.
    replace (t + 60 * 60 * 1000) with (t + 3600000) by lia.
    destruct Hexp as [-> | ->]; reflexivity. }
  unfold Jwt.Date_of_time.
  destruct (Z.leb_spec (Z.abs (t + 3600000)) 8640000000000000) as [Hin|Hout].
  - split; [| intros Hlate; lia]. intros _. simpl. f_equal.
    replace (t + 3600000) with (t + 3600 * 1000) by lia.
    apply Z.quot_add; [lia | nia].
  - split; [intros Hearly; lia | reflexivity].
Qed.

Lemma jwt_default_lifetime_is_one_hour_witness :
  Jwt.exp (Jwt.registered_claims Fixtures.jwt_env Fixtures.dated_payload)
  = Some (Z.quot 1577836800000 1000 + 3600).
Proof.
  apply (jwt_default_lifetime_is_one_hour Fixtures.jwt_env Fixtures.dated_payload
           1577836800000).
  - now left.
  - reflexivity.
  - lia.
  - lia.
Defined.

(** * The document and its canonical text *)

Section CanonicalText.

Context {Obj DatasetExt : Type} (w : World Obj DatasetExt).

Implicit Types (st : State DatasetExt) (vp : JsAny Obj) (type quads : string).

Lemma loadFromJSONLDWithQuads_same_text vp1 vp2 st :
  jsonld_canonize w vp1 = jsonld_canonize w vp2 ->
  loadFromJSONLDWithQuads w vp1 st = loadFromJSONLDWithQuads w vp2 st.
Proof.
  intros H. unfold loadFromJSONLDWithQuads, bind, normalize, lift. now rewrite H.
Qed.

(** X16: [verifyShape] sees a document through its canonical text only: two
    documents with the same canonicalisation get the same result and leave
    the same state. *)
Theorem verifyShape_depends_on_canonical_text vp1 vp2 type st :
  jsonld_canonize w vp1 = jsonld_canonize w vp2 ->
  verifyShape w vp1 type st = verifyShape w vp2 type st.
Proof.
  intros H.
  assert (verifyShape_try w vp1 type = verifyShape_try w vp2 type) as Htry.
  { unfold verifyShape_try, bind.
    assert (loadFromJSONLDWithQuads w vp1 = loadFromJSONLDWithQuads w vp2) as ->;
      [| reflexivity].
    unfold loadFromJSONLDWithQuads, bind, normalize, lift. now rewrite H. }
  unfold verifyShape, bind, normalize, lift. rewrite H, Htry. reflexivity.
Qed.

Lemma gate_true_has_type quads st :
  fst (shouldCredentialBeValidated w quads st) = Ok true ->
  exists t types, getVPTypes quads = Ok (t :: types).
Proof.
  rewrite gate_result.
  destruct (http_get_implemented w _ _) as [implemented|e]; [| discriminate].
  destruct (getVPTypes quads) as [[|t types]|e]; [discriminate | | discriminate].
  intros _. now exists t, types.
Qed.

(** X17: Inside [verifyShape] the empty-text guard of the canonical-quad path
    cannot fire for the document: a text that passes the gate holds a type
    line, so the re-parse is the parser's answer on that text.  A document
    whose canonical text is empty never gets a result: the call raises. *)
Theorem reparse_after_gate_reaches_the_parser vp type st quads :
  jsonld_canonize w vp = Ok quads ->
  (forall st1,
     fst (shouldCredentialBeValidated w quads st) = Ok true ->
     quads <> ""
     /\ loadFromJSONLDWithQuads w vp st1 = (n3_import w (JsString quads), st1))
  /\ (quads = "" -> forall r, fst (verifyShape w vp type st) <> Ok r).
Proof.
  intros Hq.
  assert (fst (shouldCredentialBeValidated w quads st) = Ok true -> quads <> "") as Hne.
  { intros Hgate ->. destruct (gate_true_has_type "" st Hgate) as (t & types & H).
    discriminate H. }
  split.
  - intros st1 Hgate. split; [now apply Hne |].
    unfold loadFromJSONLDWithQuads, bind, normalize, lift, throw. rewrite Hq.
    destruct quads as [|c quads]; [now specialize (Hne Hgate) | reflexivity].
  - intros -> r Hrun.
    pose proof (gate_pair w "" st) as Hpair.
    destruct (fst (shouldCredentialBeValidated w "" st)) as [[|]|e] eqn:Hgate.
    + now specialize (Hne eq_refl).
    + rewrite (verifyShape_after_gate w vp type st "" false _ Hq Hpair) in Hrun.
      discriminate.
    + unfold verifyShape, bind, normalize, lift in Hrun.
      rewrite Hq, Hpair in Hrun. discriminate.
Qed.

End CanonicalText.

Lemma verifyShape_depends_on_canonical_text_witness :
  verifyShape Demo.up Demo.member_doc "trustframework" initial_state
  = verifyShape Demo.up
      (JsString (Demo.type_line "<did:ex:1>" (trustframework_namespace +:+ "Member")))
      "trustframework" initial_state.
Proof.
  apply (verifyShape_depends_on_canonical_text Demo.up). reflexivity.
Defined.

Lemma reparse_after_gate_reaches_the_parser_witness :
  fst (verifyShape Demo.up Demo.empty_doc "trustframework" initial_state)
  <> Ok (mkValidationResult true []).
Proof.
  apply (proj2 (reparse_after_gate_reaches_the_parser Demo.up Demo.empty_doc
                  "trustframework" initial_state "" eq_refl)).
  reflexivity.
Defined.

(** * Instances of the properties above *)

Lemma getVPTypes_fails_on_short_line_witness :
  exists line,
    In line (split newline rdf_type) /\ kept_textually line
    /\ (length (split " " line) < 3)%nat.
Proof.
  apply (proj1 (proj1 (getVPTypes_fails_on_short_line rdf_type))).
  eexists. vm_compute. reflexivity.
Defined.

Lemma validate_outcome_witness :
  exists report,
    shacl_validate Demo.failing_shapes ["fail"] [] = Ok report
    /\ false = report_conforms report
    /\ 1%nat = length (report_results report)
    /\ forall s,
         In s ["ERROR: ex:1 ex:name: ; DETAILS: ex:age: must be integer;"] ->
         String.prefix "ERROR: " s = true.
Proof.
  apply (proj2 (proj2 (validate_outcome _ _ Demo.failing_shapes ["fail"] [] initial_state))
           (mkValidationResult false
              ["ERROR: ex:1 ex:name: ; DETAILS: ex:age: must be integer;"])).
  vm_compute. reflexivity.
Defined.

Lemma verifyShape_raised_errors_witness :
  cache (snd (verifyShape Demo.up Demo.unregistered_doc "trustframework" initial_state))
  = cache (@initial_state (list string))
  /\ shape_fetches
       (requests (snd (verifyShape Demo.up Demo.unregistered_doc "trustframework"
                         initial_state)))
     = shape_fetches (requests (@initial_state (list string))).
Proof.
  apply (proj2 (verifyShape_raised_errors Demo.up Demo.unregistered_doc "trustframework"
                  initial_state (ConflictException mismatch_text))).
  vm_compute. reflexivity.
Defined.
